(** * zendfi-blog: the content loader, the renderer entry point, the
      article filter and the sitemap

    A shallow embedding of [lib/markdown.ts] ([getAllArticles],
    [getArticleBySlug]), of the two versions of the [ArticleList] filter
    and of [app/sitemap.ts], followed by the properties the specification
    states about them.

    Conventions of the embedding.
    - A JavaScript string is a sequence of UTF-16 code units.  The model
      keeps the code units U+0000..U+00FF, which [ascii] enumerates; the
      builtins [toLowerCase], [includes], [endsWith], [replace] and [<]
      are written out on that range.
    - Code that may throw returns a [Result]; [try]/[catch] is
      [try_catch].
    - Third-party functions ([matter] of gray-matter, the unified
      pipeline, [Date]) are parameters of the functions that call them,
      and so is what can be read outside the content directory. *)

From Stdlib Require Import String Ascii List ZArith NArith QArith Bool Lia.
From Stdlib Require Import Permutation Sorted.
Import ListNotations.

Open Scope string_scope.
Open Scope Z_scope.
Open Scope list_scope.

(* ================================================================= *)
(** ** JavaScript builtins used by the sources *)

Module Js.

(** [String.prototype.toLowerCase] on one code unit below U+0100:
    A-Z and the Latin-1 capitals (all of U+00C0..U+00DE but the
    multiplication sign U+00D7) move up by 32. *)
Definition lower_unit (c : ascii) : ascii :=
  let n := N_of_ascii c in
  if ((65 <=? n) && (n <=? 90))%N
     || ((192 <=? n) && (n <=? 222) && negb (n =? 215))%N
  then ascii_of_N (n + 32)
  else c.

Fixpoint toLowerCase (s : string) : string :=
  match s with
  | EmptyString => EmptyString
  | String c s' => String (lower_unit c) (toLowerCase s')
  end.

(** [String.prototype.includes]: [sub] occurs in [s] at some position. *)
Fixpoint includes (s sub : string) : bool :=
  prefix sub s
  || match s with
     | EmptyString => false
     | String _ s' => includes s' sub
     end.

(** [String.prototype.endsWith]. *)
Fixpoint endsWith (s suffix : string) : bool :=
  (s =? suffix)%string
  || match s with
     | EmptyString => false
     | String _ s' => endsWith s' suffix
     end.

(** [s.replace(/\.md$/, '')]: the pattern is anchored at the end of the
    input, so only a final [".md"] is removed. *)
Fixpoint replace_md_suffix (s : string) : string :=
  if (s =? ".md")%string then EmptyString
  else match s with
       | EmptyString => EmptyString
       | String c s' => String c (replace_md_suffix s')
       end.

(** The class [\s] below U+0100: TAB, LF, VT, FF, CR, SPACE, NBSP. *)
Definition is_space (c : ascii) : bool :=
  let n := N_of_ascii c in
  (((9 <=? n) && (n <=? 13)) || (n =? 32) || (n =? 160))%N.

(** [s.replace(/\s+/g, '-')]: every maximal run of white space becomes
    one hyphen.  [in_run] tells that the previous unit was white space. *)
Fixpoint replace_spaces_from (in_run : bool) (s : string) : string :=
  match s with
  | EmptyString => EmptyString
  | String c s' =>
      if is_space c
      then (if in_run then replace_spaces_from true s'
            else String "-" (replace_spaces_from true s'))
      else String c (replace_spaces_from false s')
  end.

Definition replace_spaces (s : string) : string :=
  replace_spaces_from false s.

(** Values a YAML front matter can give to a key the code tests for
    truthiness.  Numbers matter here only through being zero or not;
    sequences, mappings and dates are objects. *)
Inductive Value : Type :=
| Undefined
| Null
| Boolean (b : bool)
| Number (n : Z)
| NaN
| Str (s : string)
| Object.

(** [ToBoolean]. *)
Definition truthy (v : Value) : bool :=
  match v with
  | Undefined | Null | NaN => false
  | Boolean b => b
  | Number n => negb (n =? 0)
  | Str s => negb (s =? "")%string
  | Object => true
  end.

(** [a || b] on values. *)
Definition or_else (a b : Value) : Value :=
  if truthy a then a else b.

(** Exceptions. *)
Inductive Error : Type :=
| ENOENT          (* no such file or directory *)
| EISDIR          (* the entry is not a readable file *)
| YAMLException   (* gray-matter could not parse the front matter *)
| RenderError     (* the unified pipeline failed *)
| RangeError.     (* Invalid time value *)

Inductive Result (A : Type) : Type :=
| Ok (a : A)
| Throw (e : Error).

Arguments Ok {A} a.
Arguments Throw {A} e.

Definition bind {A B : Type} (m : Result A) (k : A -> Result B) : Result B :=
  match m with
  | Ok a => k a
  | Throw e => Throw e
  end.

(** [try { body } catch (error) { handler }]. *)
Definition try_catch {A : Type} (body : Result A) (handler : Error -> Result A)
  : Result A :=
  match body with
  | Ok a => Ok a
  | Throw e => handler e
  end.

(** [Array.prototype.map] with a callback that may throw: the elements
    are visited from left to right and the first exception ends the
    traversal. *)
Fixpoint array_map {A B : Type} (f : A -> Result B) (l : list A)
  : Result (list B) :=
  match l with
  | [] => Ok []
  | x :: l' =>
      bind (f x) (fun y => bind (array_map f l') (fun ys => Ok (y :: ys)))
  end.

(** [Array.prototype.sort(comparefn)], as the insertion sort an engine
    runs on short arrays: each element in turn is the pivot and goes in
    front of the first already placed element [e] with
    [comparefn(pivot, e) < 0]. *)
Fixpoint sort_insert {A : Type} (comparefn : A -> A -> Z) (pivot : A)
  (placed : list A) : list A :=
  match placed with
  | [] => [pivot]
  | e :: rest =>
      if comparefn pivot e <? 0 then pivot :: e :: rest
      else e :: sort_insert comparefn pivot rest
  end.

Definition sort {A : Type} (comparefn : A -> A -> Z) (l : list A) : list A :=
  fold_left (fun placed pivot => sort_insert comparefn pivot placed) l [].

(** [Map]: keys in the order of their first insertion; setting a key
    that is present replaces its value and keeps its place. *)
Fixpoint Map_set {V : Type} (k : string) (v : V) (m : list (string * V))
  : list (string * V) :=
  match m with
  | [] => [(k, v)]
  | (k', v') :: m' =>
      if (k =? k')%string then (k, v) :: m'
      else (k', v') :: Map_set k v m'
  end.

(** [new Map(entries)]. *)
Definition Map_new {V : Type} (entries : list (string * V))
  : list (string * V) :=
  fold_left (fun m kv => Map_set (fst kv) (snd kv) m) entries [].

(** [Array.from(m.values())]. *)
Definition Map_values {V : Type} (m : list (string * V)) : list V :=
  map snd m.

End Js.

Import Js.

Declare Scope result_scope.
Notation "x <- m ;; k" := (bind m (fun x => k))
  (at level 61, m at next level, right associativity) : result_scope.
Notation "' p <- m ;; k" := (bind m (fun x => match x with p => k end))
  (at level 61, p pattern, m at next level, right associativity) : result_scope.
Open Scope result_scope.

(* ================================================================= *)
(** ** The data model *)

(** [Omit<Article, 'content'>] of [lib/markdown.ts], which is the
    [Article] of [components/ArticleList.tsx]. *)
Record ArticleSummary : Type := mkSummary {
  slug : string;
  title : string;
  author : string;
  date : string;
  description : string;
  tags : option (list string);
  category : option string;
  image : Value
}.

(** [Article] of [lib/markdown.ts]: the summary fields and [content]. *)
Record Article : Type := mkArticle {
  meta : ArticleSummary;
  content : string
}.

(** The [data] object gray-matter returns.  It is untyped in the source;
    the keys the code only copies have the types of the [Article]
    interface, and [image], which the code tests, ranges over [Value]. *)
Record FrontMatter : Type := mkFrontMatter {
  fm_title : string;
  fm_author : string;
  fm_date : string;
  fm_description : string;
  fm_tags : option (list string);
  fm_category : option string;
  fm_image : Value
}.

(** The content directory: its entries by name.  [NotAFile] is an entry
    [readFileSync] cannot read (a subdirectory, say). *)
Inductive Entry : Type :=
| File (contents : string)
| NotAFile.

Definition Directory : Type := list (string * Entry).

(** The file system as the code sees it: [articlesDirectory] is there or
    not, and when it is there it has these entries.  [readFileSync] below
    reads an entry by its name; a path with segments goes through
    [path_join] and [readJoined] further down. *)
Definition FileSystem : Type := option Directory.

Definition existsSync (fs : FileSystem) : bool :=
  match fs with
  | Some _ => true
  | None => false
  end.

Definition readdirSync (fs : FileSystem) : Result (list string) :=
  match fs with
  | Some entries => Ok (map fst entries)
  | None => Throw ENOENT
  end.

Definition readFileSync (fs : FileSystem) (name : string) : Result string :=
  match fs with
  | None => Throw ENOENT
  | Some entries =>
      match find (fun e => (fst e =? name)%string) entries with
      | Some (_, File contents) => Ok contents
      | Some (_, NotAFile) => Throw EISDIR
      | None => Throw ENOENT
      end
  end.

(* ================================================================= *)
(** ** [path.join(articlesDirectory, p)] *)

(** Where a joined path leads, seen from [articlesDirectory]: to an
    entry of the directory, or elsewhere, [up] levels above the directory
    and then down the [segments] (with [up = 0], below an entry or at the
    directory itself). *)
Inductive JoinedPath : Type :=
| InDirectory (name : string)
| Elsewhere (up : nat) (segments : list string).

(** [p.split('/')]. *)
Fixpoint segments_of (p : string) : list string :=
  match p with
  | EmptyString => [EmptyString]
  | String c p' =>
      if (c =? "/")%char then EmptyString :: segments_of p'
      else match segments_of p' with
           | segment :: rest => String c segment :: rest
           | [] => [String c EmptyString]
           end
  end.

(** One segment of the normalisation [path.join] does (POSIX): empty
    segments and [.] are dropped, [..] removes the segment before it or,
    at the directory, climbs one level.  [down] holds the segments below
    the point reached, innermost first. *)
Definition join_segment (at_ : nat * list string) (segment : string)
  : nat * list string :=
  let (up, down) := at_ in
  if (segment =? "")%string || (segment =? ".")%string then (up, down)
  else if (segment =? "..")%string then
    match down with
    | _ :: down' => (up, down')
    | [] => (S up, [])
    end
  else (up, segment :: down).

(** [articlesDirectory] is [path.join(process.cwd(), 'articles')]: one
    level up and down [articles] is the directory again.  The names of
    the directories further up are not known here, and neither is how
    far up the root is: such paths stay [Elsewhere]. *)
Definition path_join (p : string) : JoinedPath :=
  let (up, down) := fold_left join_segment (segments_of p) (0%nat, []) in
  match up, rev down with
  | O, [name] => InDirectory name
  | S O, [dir; name] =>
      if (dir =? "articles")%string then InDirectory name
      else Elsewhere up (rev down)
  | _, segments => Elsewhere up segments
  end.

(** [fs.readFileSync(path.join(articlesDirectory, p), 'utf8')].
    [outside] is what reading gives anywhere but at an entry of the
    directory.  The names [readdir] gives have no separator, so a path
    that is the name of an entry is already normal and reads that
    entry. *)
Definition readJoined (outside : nat -> list string -> Result string)
  (fs : FileSystem) (p : string) : Result string :=
  let is_entry :=
    match fs with
    | Some entries => existsb (fun e => (fst e =? p)%string) entries
    | None => false
    end in
  if is_entry then readFileSync fs p
  else match path_join p with
       | InDirectory name => readFileSync fs name
       | Elsewhere up segments => outside up segments
       end.

(* ================================================================= *)
(** ** lib/markdown.ts *)

Module Markdown.

Section Loader.

(** [matter(fileContents)]: the parsed front matter and the body, or
    an exception. *)
Variable matter : string -> Result (FrontMatter * string).

(** [unified().use(...)...process(content)] followed by [toString()]. *)
Variable process : string -> Result string.

(** What [readFileSync] gives at a path outside the entries of
    [articlesDirectory]. *)
Variable outside : nat -> list string -> Result string.

(** The object literal both functions build from [slug] and [data]. *)
Definition summary_of (slug : string) (data : FrontMatter) : ArticleSummary :=
  {| slug := slug;
     title := fm_title data;
     author := fm_author data;
     date := fm_date data;
     description := fm_description data;
     tags := fm_tags data;
     category := fm_category data;
     image := or_else (fm_image data) Undefined |}.

(** The callback of [.map] in [getAllArticles].  Its path is
    [path.join(articlesDirectory, name)] for a name [readdir] gave: the
    entry of that name. *)
Definition load_summary (fs : FileSystem) (name : string)
  : Result ArticleSummary :=
  let slug := replace_md_suffix name in
  fileContents <- readFileSync fs name ;;
  '(data, _) <- matter fileContents ;;
  Ok (summary_of slug data).

(** The comparator of [getAllArticles]:
    [(a, b) => (a.date < b.date ? 1 : -1)]. *)
Definition by_date (a b : ArticleSummary) : Z :=
  if (date a <? date b)%string then 1 else -1.

Definition getAllArticles (fs : FileSystem) : Result (list ArticleSummary) :=
  if negb (existsSync fs) then Ok []
  else
    fileNames <- readdirSync fs ;;
    allArticles <-
      array_map (load_summary fs)
        (filter (fun name => endsWith name ".md") fileNames) ;;
    Ok (sort by_date allArticles).

(** The body of the [try] block of [getArticleBySlug]. *)
Definition render_article (fs : FileSystem) (slug : string) : Result Article :=
  fileContents <- readJoined outside fs (slug ++ ".md") ;;
  '(data, content) <- matter fileContents ;;
  processedContent <- process content ;;
  Ok {| meta := summary_of slug data; content := processedContent |}.

(** [null] is [None].  The [console.error] line of the handler writes
    to the console only and is not part of the result. *)
Definition getArticleBySlug (fs : FileSystem) (slug : string)
  : Result (option Article) :=
  try_catch
    (article <- render_article fs slug ;; Ok (Some article))
    (fun error => Ok None).

End Loader.

End Markdown.

(* ================================================================= *)
(** ** components/ArticleList.tsx *)

(** The props of both versions of the component. *)
Record ArticleListProps : Type := mkProps {
  articles : list ArticleSummary;
  search : option string;
  selectedTag : option string;
  selectedCategory : option string
}.

(** A destructured prop with a default value. *)
Definition with_default (p : option string) (d : string) : string :=
  match p with
  | Some s => s
  | None => d
  end.

(** Truthiness of a string. *)
Definition nonempty (s : string) : bool := negb (s =? "")%string.

Module ArticleList.

(** The callback of [articles.filter]. *)
Definition keep (search selectedTag selectedCategory : string)
  (article : ArticleSummary) : bool :=
  let matchesSearch :=
    includes (toLowerCase (title article)) (toLowerCase search)
    || includes (toLowerCase (description article)) (toLowerCase search)
    || match tags article with
       | Some ts =>
           existsb
             (fun tag => includes (toLowerCase tag) (toLowerCase search)) ts
       | None => false
       end in
  let matchesTag :=
    if nonempty selectedTag
    then match tags article with
         | Some ts => existsb (String.eqb selectedTag) ts
         | None => false
         end
    else true in
  let matchesCategory :=
    if nonempty selectedCategory
    then match category article with
         | Some c => (c =? selectedCategory)%string
         | None => false
         end
    else true in
  matchesSearch && matchesTag && matchesCategory.

(** [filtered], the list the component renders. *)
Definition filtered (props : ArticleListProps) : list ArticleSummary :=
  let search := with_default (search props) "" in
  let selectedTag := with_default (selectedTag props) "" in
  let selectedCategory := with_default (selectedCategory props) "" in
  filter (keep search selectedTag selectedCategory) (articles props).

End ArticleList.

(** The second version of the component, the one that follows
    [FilterModalManager] and [Header] in [FilterModalManager.tsx]. *)
Module ArticleListCopy.

Definition keep (search selectedTag selectedCategory : string)
  (a : ArticleSummary) : bool :=
  let lowerSearch := toLowerCase search in
  let matchesSearch :=
    negb (nonempty search)
    || includes (toLowerCase (title a)) lowerSearch
    || includes (toLowerCase (description a)) lowerSearch in
  let matchesTag :=
    (selectedTag =? "")%string
    || (selectedTag =? "All Tags")%string
    || match tags a with
       | Some ts => existsb (String.eqb selectedTag) ts
       | None => false
       end in
  let matchesCategory :=
    (selectedCategory =? "")%string
    || (selectedCategory =? "All Categories")%string
    || match category a with
       | Some c => (c =? selectedCategory)%string
       | None => false
       end in
  matchesSearch && matchesTag && matchesCategory.

Definition filtered (props : ArticleListProps) : list ArticleSummary :=
  let search := with_default (search props) "" in
  let selectedTag := with_default (selectedTag props) "" in
  let selectedCategory := with_default (selectedCategory props) "" in
  filter (keep search selectedTag selectedCategory) (articles props).

End ArticleListCopy.

(* ================================================================= *)
(** ** app/sitemap.ts *)

Module Sitemap.

Inductive ChangeFrequency : Type := daily | weekly | monthly.

(** One element of [MetadataRoute.Sitemap]. *)
Record SitemapEntry : Type := mkEntry {
  url : string;
  lastModified : string;
  changeFrequency : ChangeFrequency;
  priority : Q
}.

Definition baseUrl : string := "https://blog.zendfi.tech".

(** The template literals of the two callbacks. *)
Definition article_url (slug : string) : string :=
  (baseUrl ++ "/article/" ++ slug)%string.

Definition author_slug (author : string) : string :=
  replace_spaces (toLowerCase author).

Definition author_url (author : string) : string :=
  (baseUrl ++ "/author/" ++ author_slug author)%string.

Section Generator.

Variable matter : string -> Result (FrontMatter * string).

(** [new Date(s).toISOString()], which throws a [RangeError] when [s]
    is not a date. *)
Variable toISOString : string -> Result string.

(** [new Date().toISOString()] at the time of the call. *)
Variable currentDate : string.

Definition staticPages : list SitemapEntry :=
  [ {| url := baseUrl;
       lastModified := currentDate;
       changeFrequency := daily;
       priority := 1 |} ].

Definition article_page (article : ArticleSummary) : Result SitemapEntry :=
  modified <- toISOString (date article) ;;
  Ok {| url := article_url (slug article);
        lastModified := modified;
        changeFrequency := monthly;
        priority := 8 # 10 |}.

Definition author_page (article : ArticleSummary) : Result SitemapEntry :=
  modified <- toISOString (date article) ;;
  Ok {| url := author_url (author article);
        lastModified := modified;
        changeFrequency := weekly;
        priority := 6 # 10 |}.

Definition sitemap (fs : FileSystem) : Result (list SitemapEntry) :=
  articles <- Markdown.getAllArticles matter fs ;;
  articlePages <- array_map article_page articles ;;
  authorPages <- array_map author_page articles ;;
  let uniqueAuthorPages :=
    Map_values (Map_new (map (fun page => (url page, page)) authorPages)) in
  Ok (staticPages ++ articlePages ++ uniqueAuthorPages).

End Generator.

End Sitemap.

(* ================================================================= *)
(** ** Sample content used by the examples *)

Module Sample.

(** White space in file contents is irrelevant to the examples, so the
    sample files are one line each.  [matter] stands for gray-matter on
    these files: it reads the three articles below and raises on any other
    text, as gray-matter does on a malformed front matter. *)
Definition june_md : string := "title: June / date: 2025-06-01".
Definition january_md : string := "title: January / date: 2025-01-01".
Definition solana_md : string := "title: Rails / tags: [DeFi, Solana] / image: ''".
Definition broken_md : string := "title: [unclosed".

Definition june : FrontMatter :=
  {| fm_title := "June"; fm_author := "The ZendFi Team";
     fm_date := "2025-06-01"; fm_description := "Mid-year notes";
     fm_tags := None; fm_category := None; fm_image := Undefined |}.

Definition january : FrontMatter :=
  {| fm_title := "January"; fm_author := "Blessed Tosin-Oyinbo";
     fm_date := "2025-01-01"; fm_description := "New year notes";
     fm_tags := Some ["payments"]; fm_category := Some "Blog";
     fm_image := Str "/images/cover.jpg" |}.

Definition solana : FrontMatter :=
  {| fm_title := "Rails"; fm_author := "the  zendfi team";
     fm_date := "2025-03-01"; fm_description := "Settlement in 400ms";
     fm_tags := Some ["DeFi"; "Solana"]; fm_category := Some "Research";
     fm_image := Str "" |}.

Definition matter (fileContents : string) : Result (FrontMatter * string) :=
  if (fileContents =? june_md)%string then Ok (june, "# June")
  else if (fileContents =? january_md)%string then Ok (january, "# January")
  else if (fileContents =? solana_md)%string then Ok (solana, "# Rails")
  else Throw YAMLException.

(** A pipeline that fails on one body and otherwise wraps the text in a
    paragraph. *)
Definition process (content : string) : Result string :=
  if (content =? "# January")%string then Throw RenderError
  else Ok ("<p>" ++ content ++ "</p>")%string.

(** [Date]: the dates of the samples are valid, other text is not. *)
Definition toISOString (s : string) : Result string :=
  if (String.length s =? 10)%nat then Ok (s ++ "T00:00:00.000Z")%string
  else Throw RangeError.

Definition two_files : FileSystem :=
  Some [ ("january.md", File january_md);
         ("notes.txt", File "not an article");
         ("june.md", File june_md) ].

Definition three_files : FileSystem :=
  Some [ ("january.md", File january_md);
         ("june.md", File june_md);
         ("rails.md", File solana_md) ].

Definition with_broken_file : FileSystem :=
  Some [ ("january.md", File january_md);
         ("broken.md", File broken_md);
         ("june.md", File june_md) ].

Definition no_directory : FileSystem := None.

(** The summaries the loader makes of the three articles. *)
Definition rails : ArticleSummary := Markdown.summary_of "rails" solana.
Definition june_summary : ArticleSummary := Markdown.summary_of "june" june.
Definition january_summary : ArticleSummary :=
  Markdown.summary_of "january" january.

End Sample.

(* ================================================================= *)
(** ** More builtins *)

Module JsMore.

(** [String.prototype.trim]: white space and line terminators are
    removed at both ends; below U+0100 they are the units of [\s]. *)
Fixpoint trimStart (s : string) : string :=
  match s with
  | EmptyString => EmptyString
  | String c s' => if is_space c then trimStart s' else s
  end.

Fixpoint trimEnd (s : string) : string :=
  match s with
  | EmptyString => EmptyString
  | String c s' =>
      let rest := trimEnd s' in
      if is_space c && (rest =? "")%string then EmptyString else String c rest
  end.

Definition trim (s : string) : string := trimEnd (trimStart s).

(** [Set]: values in the order of their first insertion. *)
Definition Set_add (x : string) (s : list string) : list string :=
  if existsb (String.eqb x) s then s else s ++ [x].

(** [Array.from(new Set(values))]. *)
Definition Set_new (values : list string) : list string :=
  fold_left (fun s x => Set_add x s) values [].

End JsMore.

Import JsMore.

(* ================================================================= *)
(** ** components/ArticleListWithSearch.tsx *)

Module ArticleListWithSearch.

Definition filteredArticles (articles : list ArticleSummary) (search : string)
  : list ArticleSummary :=
  filter
    (fun article =>
       includes (toLowerCase (title article)) (toLowerCase search)
       || includes (toLowerCase (description article)) (toLowerCase search)
       || match tags article with
          | Some ts =>
              existsb
                (fun tag => includes (toLowerCase tag) (toLowerCase search)) ts
          | None => false
          end)
    articles.

(** The list on screen: [<ArticleList articles={filteredArticles} />],
    the other props left to their defaults. *)
Definition shown (articles : list ArticleSummary) (search : string)
  : list ArticleSummary :=
  ArticleList.filtered (mkProps (filteredArticles articles search) None None None).

End ArticleListWithSearch.

(* ================================================================= *)
(** ** app/author/[name]/page.tsx *)

Module AuthorPage.

Definition is_lower_alnum (c : ascii) : bool :=
  let n := N_of_ascii c in
  (((97 <=? n) && (n <=? 122)) || ((48 <=? n) && (n <=? 57)))%N.

(** [.replace(/[^a-z0-9]/g, '-')]. *)
Fixpoint replace_non_alnum (s : string) : string :=
  match s with
  | EmptyString => EmptyString
  | String c s' =>
      String (if is_lower_alnum c then c else "-"%char) (replace_non_alnum s')
  end.

(** [.replace(/-+/g, '-')]; [in_run] tells that the previous unit was a
    hyphen. *)
Fixpoint collapse_hyphens_from (in_run : bool) (s : string) : string :=
  match s with
  | EmptyString => EmptyString
  | String c s' =>
      if (c =? "-")%char
      then (if in_run then collapse_hyphens_from true s'
            else String "-" (collapse_hyphens_from true s'))
      else String c (collapse_hyphens_from false s')
  end.

Definition collapse_hyphens (s : string) : string :=
  collapse_hyphens_from false s.

(** [.replace(/^-|-$/g, '')]: a hyphen at the start is removed, and a
    hyphen at the end of what follows. *)
Definition drop_leading_hyphen (s : string) : string :=
  match s with
  | String c s' => if (c =? "-")%char then s' else s
  | EmptyString => EmptyString
  end.

Fixpoint drop_trailing_hyphen (s : string) : string :=
  match s with
  | EmptyString => EmptyString
  | String c EmptyString => if (c =? "-")%char then EmptyString else s
  | String c s' => String c (drop_trailing_hyphen s')
  end.

(** The helper [slugify] of the page. *)
Definition slugify (str : string) : string :=
  drop_trailing_hyphen
    (drop_leading_hyphen
       (collapse_hyphens (replace_non_alnum (toLowerCase str)))).

(** What the page does: [notFound()] or the list it renders. *)
Inductive Page : Type :=
| NotFound
| Rendered (authorArticles : list ArticleSummary).

Section Page.

Variable matter : string -> Result (FrontMatter * string).

(** The author profile read from [author/<slug>.md] is inside a
    [try]/[catch] and feeds the heading only; the articles and the
    not-found decision do not depend on it. *)
Definition AuthorPage (fs : FileSystem) (name : string) : Result Page :=
  let authorSlug := toLowerCase name in
  articles <- Markdown.getAllArticles matter fs ;;
  let authorArticles :=
    filter (fun article => (slugify (author article) =? authorSlug)%string)
      articles in
  if (length authorArticles =? 0)%nat then Ok NotFound
  else Ok (Rendered authorArticles).

(** The [name] parameters of the statically generated routes. *)
Definition generateStaticParams (fs : FileSystem) : Result (list string) :=
  articles <- Markdown.getAllArticles matter fs ;;
  let authorSlugs :=
    Set_new
      (map (fun article => replace_spaces (toLowerCase (author article)))
         articles) in
  Ok authorSlugs.

End Page.

End AuthorPage.

(* ================================================================= *)
(** ** app/article/[slug]/page.tsx *)

Module ArticlePage.

(** The fields of [Metadata] that depend on the article. *)
Record Metadata : Type := mkMetadata {
  md_title : string;
  md_description : string;
  md_publishedTime : option string;
  md_canonical : option string
}.

Inductive Page : Type :=
| NotFound
| Rendered (article : Article) (slug : string).

Section Page.

Variable matter : string -> Result (FrontMatter * string).
Variable process : string -> Result string.
Variable outside : nat -> list string -> Result string.

Definition generateMetadata (fs : FileSystem) (slug : string) : Result Metadata :=
  article <- Markdown.getArticleBySlug matter process outside fs slug ;;
  match article with
  | None =>
      Ok {| md_title := "Article Not Found";
            md_description := "The requested article could not be found.";
            md_publishedTime := None;
            md_canonical := None |}
  | Some article =>
      Ok {| md_title := title (meta article);
            md_description := description (meta article);
            md_publishedTime := Some (date (meta article));
            md_canonical := Some ("/article/" ++ slug)%string |}
  end.

Definition ArticlePage (fs : FileSystem) (slug : string) : Result Page :=
  article <- Markdown.getArticleBySlug matter process outside fs slug ;;
  match article with
  | None => Ok NotFound
  | Some article => Ok (Rendered article slug)
  end.

(** The [slug] parameters of the statically generated routes. *)
Definition generateStaticParams (fs : FileSystem) : Result (list string) :=
  articles <- Markdown.getAllArticles matter fs ;;
  Ok (map slug articles).

End Page.

End ArticlePage.

(* ================================================================= *)
(** ** components/FilterModalManager.tsx and
       components/SearchModalProvider.tsx: the filter state *)

(** The four [useState] cells both components keep. *)
Record FilterState : Type := mkState {
  isModalOpen : bool;
  st_search : string;
  st_selectedTag : string;
  st_selectedCategory : string
}.

(** What the user can do to the modal.  [SelectTag i] and
    [SelectCategory i] choose the [i]-th [<option>] of a [<select>]. *)
Inductive Event : Type :=
| OpenFilterModal            (* the button of [Header] *)
| CloseButton                (* the [&times;] button of the modal *)
| ClickOutside               (* [mousedown] outside the modal *)
| SearchChange (value : string)
| SearchKeyDown (key : string)
| SelectTag (i : nat)
| SelectCategory (i : nat).

(** [value={tag === 'All Tags' ? '' : tag}] and its twin. *)
Definition tag_option_value (tag : string) : string :=
  if (tag =? "All Tags")%string then "" else tag.

Definition category_option_value (cat : string) : string :=
  if (cat =? "All Categories")%string then "" else cat.

Definition initial : FilterState :=
  {| isModalOpen := false; st_search := ""; st_selectedTag := "";
     st_selectedCategory := "" |}.

(** The handlers that live inside [{isModalOpen && (...)}]: they exist
    only while the modal is on screen. *)
Definition modal_event (tags categories : list string) (s : FilterState)
  (e : Event) : option FilterState :=
  match e with
  | CloseButton =>
      Some {| isModalOpen := false; st_search := st_search s;
              st_selectedTag := st_selectedTag s;
              st_selectedCategory := st_selectedCategory s |}
  | SearchChange value =>
      Some {| isModalOpen := isModalOpen s; st_search := value;
              st_selectedTag := st_selectedTag s;
              st_selectedCategory := st_selectedCategory s |}
  | SearchKeyDown key =>
      if (key =? "Enter")%string
      then Some {| isModalOpen := false; st_search := st_search s;
                   st_selectedTag := st_selectedTag s;
                   st_selectedCategory := st_selectedCategory s |}
      else Some s
  | SelectTag i =>
      match nth_error tags i with
      | Some tag =>
          Some {| isModalOpen := isModalOpen s; st_search := st_search s;
                  st_selectedTag := tag_option_value tag;
                  st_selectedCategory := st_selectedCategory s |}
      | None => None
      end
  | SelectCategory i =>
      match nth_error categories i with
      | Some cat =>
          Some {| isModalOpen := isModalOpen s; st_search := st_search s;
                  st_selectedTag := st_selectedTag s;
                  st_selectedCategory := category_option_value cat |}
      | None => None
      end
  | OpenFilterModal | ClickOutside => None
  end.

Fixpoint run (dispatch : FilterState -> Event -> option FilterState)
  (s : FilterState) (events : list Event) : option FilterState :=
  match events with
  | [] => Some s
  | e :: events' =>
      match dispatch s e with
      | Some s' => run dispatch s' events'
      | None => None
      end
  end.

Module FilterModalManager.

Definition tagsList : list string := ["All Tags"; "Blockchain"; "AI"; "Security"].
Definition categoriesList : list string :=
  ["All Categories"; "Research"; "Development"; "Tutorial"].

(** The component renders no [Header] (the line is commented out) and
    installs no document listener: the only handlers are those of the
    modal.  [None]: the event cannot happen in this state. *)
Definition dispatch (s : FilterState) (e : Event) : option FilterState :=
  if isModalOpen s then modal_event tagsList categoriesList s e else None.

(** [cloneElement(child, { search, selectedTag, selectedCategory })]
    on a child that is an [ArticleList] element. *)
Definition childWithProps (s : FilterState) (child : ArticleListProps)
  : ArticleListProps :=
  mkProps (articles child) (Some (st_search s)) (Some (st_selectedTag s))
    (Some (st_selectedCategory s)).

End FilterModalManager.

Module SearchModalProvider.

Definition tags : list string := ["All Tags"; "Blockchain"; "AI"; "Security"].
Definition categories : list string :=
  ["All Categories"; "Research"; "Development"; "Tutorial"].

(** [Header] is always on screen; the [mousedown] listener is installed
    while the modal is open. *)
Definition dispatch (s : FilterState) (e : Event) : option FilterState :=
  match e with
  | OpenFilterModal =>
      Some {| isModalOpen := true; st_search := st_search s;
              st_selectedTag := st_selectedTag s;
              st_selectedCategory := st_selectedCategory s |}
  | ClickOutside =>
      if isModalOpen s
      then Some {| isModalOpen := false; st_search := st_search s;
                   st_selectedTag := st_selectedTag s;
                   st_selectedCategory := st_selectedCategory s |}
      else None
  | _ => if isModalOpen s then modal_event tags categories s e else None
  end.

(** The props of the [ArticleList] the provider renders on the home
    page when it was given articles. *)
Definition listProps (s : FilterState) (articles : list ArticleSummary)
  : ArticleListProps :=
  mkProps articles (Some (st_search s)) (Some (st_selectedTag s))
    (Some (st_selectedCategory s)).

End SearchModalProvider.

(** The later version of [SearchModalProvider], which computes the
    results shown inside the modal itself. *)
Module SearchModalProviderResults.

Definition filteredArticles (articles : option (list ArticleSummary))
  (search selectedCategory : string) : list ArticleSummary :=
  match articles with
  | None => []
  | Some articles =>
      let lowerSearch := toLowerCase search in
      filter
        (fun article =>
           let matchesSearch :=
             negb (nonempty (trim search))
             || includes (toLowerCase (title article)) lowerSearch
             || includes (toLowerCase (description article)) lowerSearch
             || match tags article with
                | Some ts =>
                    existsb (fun tag => includes (toLowerCase tag) lowerSearch) ts
                | None => false
                end
             || match category article with
                | Some c => includes (toLowerCase c) lowerSearch
                | None => false
                end in
           let matchesCategory :=
             (selectedCategory =? "")%string
             || (selectedCategory =? "All Categories")%string
             || match category article with
                | Some c => (c =? selectedCategory)%string
                | None => false
                end in
           matchesSearch && matchesCategory)
        articles
  end.

End SearchModalProviderResults.

(* ================================================================= *)
(** ** One more sample *)

Module SampleAuthors.

(** A directory with one article, by an author whose name has a dot. *)
Definition ada_md : string := "title: Notes / author: Dr. Ada Lovelace".

Definition ada : FrontMatter :=
  {| fm_title := "Notes"; fm_author := "Dr. Ada Lovelace";
     fm_date := "2025-02-01"; fm_description := "On the engine";
     fm_tags := None; fm_category := None; fm_image := Undefined |}.

Definition matter (fileContents : string) : Result (FrontMatter * string) :=
  if (fileContents =? ada_md)%string then Ok (ada, "# Notes")
  else Throw YAMLException.

Definition one_file : FileSystem := Some [ ("notes.md", File ada_md) ].

End SampleAuthors.

(* ================================================================= *)
(** ** Samples for paths and for the parser's answers *)

Module SamplePaths.

(** Nothing can be read outside the directory. *)
Definition nothing_outside (up : nat) (segments : list string)
  : Result string :=
  Throw ENOENT.



End SamplePaths.

(* ================================================================= *)
(** ** The specification's vocabulary *)

Module Spec.

(** [sub] occurs in [s] when letter case is ignored. *)
Definition contains_ci (s sub : string) : Prop :=
  exists pre post, toLowerCase s = (pre ++ toLowerCase sub ++ post)%string.

Definition has_tag (a : ArticleSummary) (t : string) : Prop :=
  exists ts, tags a = Some ts /\ In t ts.

(** The title, the description or some tag contains the query. *)
Definition matches_query (query : string) (a : ArticleSummary) : Prop :=
  contains_ci (title a) query
  \/ contains_ci (description a) query
  \/ exists t, has_tag a t /\ contains_ci t query.

(** The contract of the filter.  [all_tags] and [all_categories] tell
    which selector values stand for the choice "All". *)
Definition matches (all_tags all_categories : string -> Prop)
  (query tag cat : string) (a : ArticleSummary) : Prop :=
  matches_query query a
  /\ (~ all_tags tag -> has_tag a tag)
  /\ (~ all_categories cat -> category a = Some cat).

(** [r] is the subsequence of [l] made of exactly the elements that
    satisfy [P]. *)
Inductive selects {A : Type} (P : A -> Prop) : list A -> list A -> Prop :=
| selects_nil : selects P [] []
| selects_keep x l r : P x -> selects P l r -> selects P (x :: l) (x :: r)
| selects_drop x l r : ~ P x -> selects P l r -> selects P (x :: l) r.

(** Descending by date: no element has a date below the next one's. *)
Definition date_ge (a b : ArticleSummary) : Prop :=
  (date a <? date b)%string = false.

(** The names of the files of the content directory. *)
Definition file_names (fs : FileSystem) : list string :=
  match fs with
  | Some entries => map fst entries
  | None => []
  end.

End Spec.

(* ================================================================= *)
(** ** Strings *)

Lemma prefix_iff (p s : string) :
  prefix p s = true <-> exists post, s = (p ++ post)%string.
Proof.
  revert s; induction p as [|a p IH]; intros s; simpl.
  - split; [intros _; exists s; reflexivity | intros _; now destruct s].
  - destruct s as [|b s].
    + split; [discriminate | intros [post H]; discriminate].
    + simpl. destruct (ascii_dec a b) as [E|Hab].
      * split.
        -- intros H. apply IH in H. destruct H as [post ->].
           exists post. now rewrite E.
        -- intros [post H]. inversion H. apply IH. now exists post.
      * split; [discriminate | intros [post H]; congruence].
Qed.

Lemma includes_iff (s sub : string) :
  includes s sub = true <-> exists pre post, s = (pre ++ sub ++ post)%string.
Proof.
  induction s as [|c s IH]; cbn [includes].
  - rewrite orb_false_r, prefix_iff. split.
    + intros [post H]. exists EmptyString, post. exact H.
    + intros [[|a pre] [post H]]; [exists post; exact H | discriminate].
  - rewrite orb_true_iff, prefix_iff, IH. split.
    + intros [[post H] | [pre [post H]]].
      * exists EmptyString, post. exact H.
      * exists (String c pre), post. simpl. now rewrite H.
    + intros [[|a pre] [post H]].
      * left. exists post. exact H.
      * right. exists pre, post. simpl in H. now inversion H.
Qed.

Lemma includes_empty (s : string) : includes s "" = true.
Proof. destruct s; reflexivity. Qed.

Lemma endsWith_iff (s suffix : string) :
  endsWith s suffix = true <-> exists pre, s = (pre ++ suffix)%string.
Proof.
  induction s as [|c s IH]; cbn [endsWith].
  - rewrite orb_false_r, String.eqb_eq. split.
    + intros <-. exists EmptyString. reflexivity.
    + intros [[|a pre] H]; [exact H | discriminate].
  - rewrite orb_true_iff, String.eqb_eq, IH. split.
    + intros [<- | [pre H]].
      * exists EmptyString. reflexivity.
      * exists (String c pre). simpl. now rewrite H.
    + intros [[|a pre] H].
      * left. exact H.
      * right. exists pre. simpl in H. now inversion H.
Qed.

Lemma length_append (a b : string) :
  String.length (a ++ b) = (String.length a + String.length b)%nat.
Proof. induction a; simpl; congruence. Qed.

(** Removing the extension undoes appending it. *)
Lemma replace_md_suffix_append (pre : string) :
  replace_md_suffix (pre ++ ".md") = pre.
Proof.
  induction pre as [|c pre IH].
  - reflexivity.
  - cbn [append replace_md_suffix].
    destruct (String.eqb_spec (String c (pre ++ ".md")) ".md") as [E|_].
    + apply (f_equal String.length) in E. simpl in E.
      rewrite length_append in E. simpl in E. lia.
    + now rewrite IH.
Qed.

Lemma endsWith_md_split (name : string) :
  endsWith name ".md" = true ->
  name = (replace_md_suffix name ++ ".md")%string.
Proof.
  intros H. apply endsWith_iff in H. destruct H as [pre ->].
  now rewrite replace_md_suffix_append.
Qed.

Lemma append_inj_l (p a b : string) :
  (p ++ a)%string = (p ++ b)%string -> a = b.
Proof. induction p; simpl; intros H; [exact H | inversion H; auto]. Qed.

Lemma append_inj_r (a b suffix : string) :
  (a ++ suffix)%string = (b ++ suffix)%string -> a = b.
Proof.
  revert b; induction a as [|x a IH]; intros [|y b] H; simpl in H.
  - reflexivity.
  - apply (f_equal String.length) in H. simpl in H.
    rewrite length_append in H. lia.
  - apply (f_equal String.length) in H. simpl in H.
    rewrite length_append in H. lia.
  - inversion H. f_equal. now apply IH.
Qed.

(** [<] on strings is asymmetric. *)
Lemma ltb_asym (a b : string) :
  (a <? b)%string = true -> (b <? a)%string = false.
Proof.
  unfold String.ltb. rewrite (String.compare_antisym b a).
  destruct (String.compare a b); simpl; congruence.
Qed.

(* ================================================================= *)
(** ** The filter *)

Section FilterFacts.

Lemma filter_selects {A : Type} (f : A -> bool) (P : A -> Prop) (l : list A) :
  (forall x, f x = true <-> P x) -> Spec.selects P l (filter f l).
Proof.
  intros Hf. induction l as [|x l IH]; simpl.
  - constructor.
  - destruct (f x) eqn:E.
    + apply Spec.selects_keep; [now apply Hf | exact IH].
    + apply Spec.selects_drop; [|exact IH].
      intros HP. apply Hf in HP. congruence.
Qed.

Lemma filter_all {A : Type} (f : A -> bool) (l : list A) :
  (forall x, f x = true) -> filter f l = l.
Proof.
  intros Hf. induction l as [|x l IH]; simpl; [reflexivity|].
  now rewrite Hf, IH.
Qed.

Lemma includes_ci (s query : string) :
  includes (toLowerCase s) (toLowerCase query) = true
  <-> Spec.contains_ci s query.
Proof. apply includes_iff. Qed.

Lemma some_tag_includes (a : ArticleSummary) (query : string) :
  match tags a with
  | Some ts =>
      existsb (fun tag => includes (toLowerCase tag) (toLowerCase query)) ts
  | None => false
  end = true
  <-> exists t, Spec.has_tag a t /\ Spec.contains_ci t query.
Proof.
  unfold Spec.has_tag. destruct (tags a) as [ts|].
  - rewrite existsb_exists. split.
    + intros [t [Hin Ht]]. exists t. split; [now exists ts|].
      now apply includes_ci.
    + intros [t [[ts' [E Hin]] Ht]]. inversion E; subst ts'.
      exists t. split; [exact Hin | now apply includes_ci].
  - split; [discriminate | intros [t [[ts [E _]] _]]; discriminate].
Qed.

Lemma tags_include (a : ArticleSummary) (t : string) :
  match tags a with
  | Some ts => existsb (String.eqb t) ts
  | None => false
  end = true
  <-> Spec.has_tag a t.
Proof.
  unfold Spec.has_tag. destruct (tags a) as [ts|].
  - rewrite existsb_exists. split.
    + intros [t' [Hin E]]. apply String.eqb_eq in E. subst t'. now exists ts.
    + intros [ts' [E Hin]]. inversion E; subst ts'.
      exists t. split; [exact Hin | apply String.eqb_refl].
  - split; [discriminate | intros [ts [E _]]; discriminate].
Qed.

Lemma category_is (a : ArticleSummary) (c : string) :
  match category a with
  | Some c' => (c' =? c)%string
  | None => false
  end = true
  <-> category a = Some c.
Proof.
  destruct (category a) as [c'|].
  - rewrite String.eqb_eq. split; [now intros -> | now intros [= ->]].
  - split; discriminate.
Qed.

Lemma nonempty_false (s : string) : nonempty s = false <-> s = "".
Proof.
  unfold nonempty. rewrite negb_false_iff. apply String.eqb_eq.
Qed.

(** The callback of [ArticleList.tsx] decides the contract, with the
    empty selector standing for "All". *)
Lemma ArticleList_keep_iff (query tag cat : string) (a : ArticleSummary) :
  ArticleList.keep query tag cat a = true
  <-> Spec.matches (eq "") (eq "") query tag cat a.
Proof.
  unfold ArticleList.keep, Spec.matches, Spec.matches_query.
  rewrite !andb_true_iff, !orb_true_iff, !includes_ci, some_tag_includes.
  rewrite <- tags_include, <- category_is.
  destruct (nonempty tag) eqn:Et; destruct (nonempty cat) eqn:Ec;
    try apply nonempty_false in Et; try apply nonempty_false in Ec.
  - assert (tag <> "") by (intros ->; discriminate).
    assert (cat <> "") by (intros ->; discriminate).
    intuition auto.
  - assert (tag <> "") by (intros ->; discriminate).
    intuition congruence.
  - assert (cat <> "") by (intros ->; discriminate).
    intuition congruence.
  - intuition congruence.
Qed.

(** What [ArticleList.tsx] computes: exactly the articles that meet
    the contract, in their order. *)
Lemma ArticleList_filtered_selects (props : ArticleListProps) :
  Spec.selects
    (Spec.matches (eq "") (eq "")
       (with_default (search props) "")
       (with_default (selectedTag props) "")
       (with_default (selectedCategory props) ""))
    (articles props) (ArticleList.filtered props).
Proof.
  unfold ArticleList.filtered. apply filter_selects.
  intros a. apply ArticleList_keep_iff.
Qed.

(** The callback of the second version: the query is looked for in
    the title and the description only. *)
Lemma ArticleListCopy_keep_iff (query tag cat : string) (a : ArticleSummary) :
  ArticleListCopy.keep query tag cat a = true
  <-> (query = "" \/ Spec.contains_ci (title a) query
       \/ Spec.contains_ci (description a) query)
      /\ (tag = "" \/ tag = "All Tags" \/ Spec.has_tag a tag)
      /\ (cat = "" \/ cat = "All Categories" \/ category a = Some cat).
Proof.
  unfold ArticleListCopy.keep.
  rewrite !andb_true_iff, !orb_true_iff, !includes_ci, !String.eqb_eq.
  rewrite negb_true_iff, nonempty_false, tags_include, category_is.
  tauto.
Qed.

End FilterFacts.

(** C7: with the empty query and the empty selectors, passed as [""]
    (as [app/page.tsx] does) or left to their defaults, both versions
    of the filter return the list they were given: the same articles in
    the same order. *)
Theorem filter_without_criteria_is_identity (l : list ArticleSummary) :
  ArticleList.filtered (mkProps l (Some "") (Some "") (Some "")) = l
  /\ ArticleList.filtered (mkProps l None None None) = l
  /\ ArticleListCopy.filtered (mkProps l (Some "") (Some "") (Some "")) = l
  /\ ArticleListCopy.filtered (mkProps l None None None) = l.
Proof.
  assert (H1 : forall a, ArticleList.keep "" "" "" a = true).
  { intros a. unfold ArticleList.keep. cbn [toLowerCase nonempty String.eqb negb].
    now rewrite includes_empty. }
  assert (H2 : forall a, ArticleListCopy.keep "" "" "" a = true).
  { intros a. reflexivity. }
  unfold ArticleList.filtered, ArticleListCopy.filtered; cbn [with_default search
    selectedTag selectedCategory articles].
  repeat split; now apply filter_all.
Qed.

(** C1: the article with tags [DeFi] and [Solana] meets the contract for
    the query [solana], and [ArticleList.tsx] returns it; the second
    version of the component, which does not look at the tags when it
    matches the query, returns nothing. *)
Theorem copy_misses_query_in_tags :
  let props := mkProps [Sample.rails] (Some "solana") None None in
  Spec.matches (eq "") (eq "") "solana" "" "" Sample.rails
  /\ ArticleList.filtered props = [Sample.rails]
  /\ ArticleListCopy.filtered props = [].
Proof.
  cbv zeta. split; [|split; reflexivity].
  split; [|split; intros H; now contradiction H].
  right; right. exists "Solana". split.
  - exists ["DeFi"; "Solana"]. split; [reflexivity | simpl; auto].
  - exists "", "". reflexivity.
Qed.

(* ================================================================= *)
(** ** Arrays: [map] with exceptions and [sort] *)

Lemma bind_Ok {X Y : Type} (m : Result X) (k : X -> Result Y) (y : Y) :
  bind m k = Ok y -> exists x, m = Ok x /\ k x = Ok y.
Proof. destruct m as [x|e]; simpl; [now exists x | discriminate]. Qed.

Section ArrayFacts.

Context {A B : Type}.

(** A successful [map] ran the callback with success on every element,
    position by position. *)
Lemma array_map_Ok (f : A -> Result B) (l : list A) (ys : list B) :
  array_map f l = Ok ys -> Forall2 (fun x y => f x = Ok y) l ys.
Proof.
  revert ys; induction l as [|x l IH]; intros ys H; simpl in H.
  - inversion H. constructor.
  - apply bind_Ok in H. destruct H as [y [Hy H]].
    destruct (array_map f l) as [ys'|e]; simpl in H; [|discriminate].
    inversion H; subst. constructor; [exact Hy | now apply IH].
Qed.

(** [map] throws as soon as the callback throws on some element. *)
Lemma array_map_Throw (f : A -> Result B) (l : list A) (x : A) (e : Error) :
  In x l -> f x = Throw e -> exists e', array_map f l = Throw e'.
Proof.
  intros Hin Hx. induction l as [|x' l IH]; [contradiction|].
  simpl. destruct Hin as [-> | Hin].
  - rewrite Hx. now exists e.
  - destruct (f x') as [y|e1]; simpl; [|now exists e1].
    destruct (IH Hin) as [e2 ->]. now exists e2.
Qed.

(** [map] succeeds when the callback does on every element. *)
Lemma array_map_total (f : A -> Result B) (l : list A) :
  (forall x, In x l -> exists y, f x = Ok y) -> exists ys, array_map f l = Ok ys.
Proof.
  induction l as [|x l IH]; intros H; simpl.
  - now exists [].
  - destruct (H x (or_introl eq_refl)) as [y ->].
    destruct IH as [ys ->]; [intros x' Hx'; apply H; now right|].
    now exists (y :: ys).
Qed.

Variable comparefn : A -> A -> Z.

Lemma sort_insert_perm (pivot : A) (placed : list A) :
  Permutation (sort_insert comparefn pivot placed) (pivot :: placed).
Proof.
  induction placed as [|e rest IH]; simpl.
  - apply Permutation_refl.
  - destruct (comparefn pivot e <? 0).
    + apply Permutation_refl.
    + eapply Permutation_trans; [apply perm_skip, IH | apply perm_swap].
Qed.

Lemma sort_from_perm (l placed : list A) :
  Permutation
    (fold_left (fun placed pivot => sort_insert comparefn pivot placed) l placed)
    (l ++ placed).
Proof.
  revert placed; induction l as [|x l IH]; intros placed; simpl.
  - apply Permutation_refl.
  - eapply Permutation_trans; [apply IH|].
    eapply Permutation_trans;
      [apply Permutation_app_head, sort_insert_perm|].
    apply Permutation_sym, Permutation_middle.
Qed.

(** [sort] rearranges: it neither loses nor invents an element. *)
Lemma sort_perm (l : list A) : Permutation (sort comparefn l) l.
Proof.
  unfold sort. eapply Permutation_trans; [apply sort_from_perm|].
  now rewrite app_nil_r.
Qed.

(** The order [sort] establishes, for a comparator that answers
    "negative" exactly when [R] holds and whose [R] is total. *)
Variable R : A -> A -> Prop.
Hypothesis comparefn_neg : forall x y, (comparefn x y <? 0) = true -> R x y.
Hypothesis comparefn_pos : forall x y, (comparefn x y <? 0) = false -> R y x.

Lemma sort_insert_sorted (pivot : A) (placed : list A) :
  Sorted R placed -> Sorted R (sort_insert comparefn pivot placed).
Proof.
  induction placed as [|e rest IH]; intros HS; simpl.
  - repeat constructor.
  - destruct (comparefn pivot e <? 0) eqn:E.
    + constructor; [exact HS|]. constructor. now apply comparefn_neg.
    + inversion HS as [|? ? Hrest Hhd]; subst.
      constructor; [now apply IH|].
      destruct rest as [|e' rest']; simpl.
      * constructor. now apply comparefn_pos.
      * destruct (comparefn pivot e' <? 0).
        -- constructor. now apply comparefn_pos.
        -- constructor. now inversion Hhd.
Qed.

Lemma sort_sorted (l : list A) : Sorted R (sort comparefn l).
Proof.
  unfold sort.
  assert (H : forall placed, Sorted R placed ->
    Sorted R (fold_left
      (fun placed pivot => sort_insert comparefn pivot placed) l placed)).
  { induction l as [|x l' IH]; intros placed HS; simpl; [exact HS|].
    apply IH. now apply sort_insert_sorted. }
  apply H. constructor.
Qed.

Lemma Sorted_adjacent (l : list A) (i : nat) (x y : A) :
  Sorted R l -> nth_error l i = Some x -> nth_error l (S i) = Some y -> R x y.
Proof.
  intros HS. revert i. induction HS as [|a l HSl IH Hhd]; intros i Hx Hy.
  - destruct i; discriminate.
  - destruct i as [|i]; simpl in Hx, Hy.
    + inversion Hx; subst. destruct l as [|b l']; [discriminate|].
      simpl in Hy. inversion Hy; subst. now inversion Hhd.
    + now apply (IH i).
Qed.

End ArrayFacts.

(* ================================================================= *)
(** ** The loader *)

Section LoaderFacts.

Variable matter : string -> Result (FrontMatter * string).

Lemma by_date_neg (a b : ArticleSummary) :
  (Markdown.by_date a b <? 0) = true -> Spec.date_ge a b.
Proof.
  unfold Markdown.by_date, Spec.date_ge.
  destruct (date a <? date b)%string; [discriminate | reflexivity].
Qed.

Lemma by_date_pos (a b : ArticleSummary) :
  (Markdown.by_date a b <? 0) = false -> Spec.date_ge b a.
Proof.
  unfold Markdown.by_date, Spec.date_ge.
  destruct (date a <? date b)%string eqn:E; [intros _ | discriminate].
  now apply ltb_asym.
Qed.

(** What a returned listing is: the sorted array of the summaries of
    the [.md] files, in directory order before the sort. *)
Lemma getAllArticles_Ok (entries : Directory) (out : list ArticleSummary) :
  Markdown.getAllArticles matter (Some entries) = Ok out ->
  exists loaded,
    Forall2 (fun name a => Markdown.load_summary matter (Some entries) name = Ok a)
      (filter (fun name => endsWith name ".md") (map fst entries)) loaded
    /\ out = sort Markdown.by_date loaded.
Proof.
  unfold Markdown.getAllArticles. simpl. intros H.
  apply bind_Ok in H. destruct H as [loaded [Hmap H]].
  inversion H; subst. exists loaded. split; [|reflexivity].
  now apply array_map_Ok.
Qed.

(** A loaded summary is the object literal built from the name and
    the parsed front matter of its file. *)
Lemma load_summary_Ok (fs : FileSystem) (name : string) (a : ArticleSummary) :
  Markdown.load_summary matter fs name = Ok a ->
  exists contents data body,
    readFileSync fs name = Ok contents
    /\ matter contents = Ok (data, body)
    /\ a = Markdown.summary_of (replace_md_suffix name) data.
Proof.
  unfold Markdown.load_summary. intros H.
  apply bind_Ok in H. destruct H as [contents [Hread H]].
  apply bind_Ok in H. destruct H as [[data body] [Hm H]].
  inversion H; subst. now exists contents, data, body.
Qed.

Lemma Forall2_slugs (fs : FileSystem) (names : list string)
  (loaded : list ArticleSummary) :
  Forall2 (fun name a => Markdown.load_summary matter fs name = Ok a)
    names loaded ->
  map slug loaded = map replace_md_suffix names.
Proof.
  induction 1 as [|name a names loaded Hl _ IH]; simpl; [reflexivity|].
  apply load_summary_Ok in Hl. destruct Hl as [c [d [b [_ [_ ->]]]]].
  simpl. now rewrite IH.
Qed.

Lemma Forall2_In_r {X Y : Type} (P : X -> Y -> Prop) (xs : list X)
  (ys : list Y) (y : Y) :
  Forall2 P xs ys -> In y ys -> exists x, In x xs /\ P x y.
Proof.
  induction 1 as [|x0 y0 xs ys HP _ IH]; intros Hin; [contradiction|].
  destruct Hin as [<- | Hin].
  - exists x0. split; [now left | exact HP].
  - destruct (IH Hin) as [x [Hx HPx]]. exists x. split; [now right | exact HPx].
Qed.

(** The slugs of a returned listing are, up to order, the names of the
    [.md] files without their extension. *)
Lemma getAllArticles_slugs (entries : Directory) (out : list ArticleSummary) :
  Markdown.getAllArticles matter (Some entries) = Ok out ->
  Permutation (map slug out)
    (map replace_md_suffix
       (filter (fun name => endsWith name ".md") (map fst entries))).
Proof.
  intros H. apply getAllArticles_Ok in H. destruct H as [loaded [HF ->]].
  rewrite <- (Forall2_slugs _ _ _ HF).
  apply Permutation_map, sort_perm.
Qed.

(** Every summary of a returned listing was read from the file
    [slug.md] of the directory. *)
Lemma getAllArticles_origin (entries : Directory) (out : list ArticleSummary)
  (a : ArticleSummary) :
  Markdown.getAllArticles matter (Some entries) = Ok out ->
  In a out ->
  In (slug a ++ ".md")%string (map fst entries)
  /\ exists contents data body,
       readFileSync (Some entries) (slug a ++ ".md") = Ok contents
       /\ matter contents = Ok (data, body)
       /\ a = Markdown.summary_of (slug a) data.
Proof.
  intros H Hin. apply getAllArticles_Ok in H. destruct H as [loaded [HF ->]].
  apply (Permutation_in _ (sort_perm Markdown.by_date loaded)) in Hin.
  destruct (Forall2_In_r _ _ _ _ HF Hin) as [name [Hname Hl]].
  apply filter_In in Hname. destruct Hname as [Hname Hmd].
  apply endsWith_md_split in Hmd.
  apply load_summary_Ok in Hl. destruct Hl as [c [d [b [Hr [Hm ->]]]]].
  simpl. rewrite <- Hmd. split; [exact Hname | now exists c, d, b].
Qed.

Lemma replace_md_suffix_inj (n1 n2 : string) :
  endsWith n1 ".md" = true -> endsWith n2 ".md" = true ->
  replace_md_suffix n1 = replace_md_suffix n2 -> n1 = n2.
Proof.
  intros H1 H2 E. rewrite (endsWith_md_split _ H1), (endsWith_md_split _ H2).
  now rewrite E.
Qed.

Lemma NoDup_map_on {X Y : Type} (f : X -> Y) (l : list X) :
  (forall x y, In x l -> In y l -> f x = f y -> x = y) ->
  NoDup l -> NoDup (map f l).
Proof.
  intros Hinj HN. induction HN as [|x l Hx HN IH]; simpl; constructor.
  - intros Hin. apply in_map_iff in Hin. destruct Hin as [y [E Hy]].
    assert (y = x) by (apply Hinj; [now right | now left | exact E]).
    subst y. contradiction.
  - apply IH. intros a b Ha Hb. apply Hinj; now right.
Qed.

(** Distinct file names give distinct slugs. *)
Lemma getAllArticles_slugs_NoDup (entries : Directory)
  (out : list ArticleSummary) :
  NoDup (map fst entries) ->
  Markdown.getAllArticles matter (Some entries) = Ok out ->
  NoDup (map slug out).
Proof.
  intros HN H.
  apply (Permutation_NoDup (Permutation_sym (getAllArticles_slugs _ _ H))).
  apply NoDup_map_on.
  - intros x y Hx Hy. apply filter_In in Hx, Hy.
    apply replace_md_suffix_inj; tauto.
  - now apply NoDup_filter.
Qed.

(** In a directory, a name designates its entry. *)
Lemma readFileSync_entry (entries : Directory) (name contents : string) :
  NoDup (map fst entries) -> In (name, File contents) entries ->
  readFileSync (Some entries) name = Ok contents.
Proof.
  unfold readFileSync. induction entries as [|[n e] entries IH];
    intros HN Hin; [contradiction|].
  simpl. inversion HN as [|? ? Hn HN']; subst.
  destruct (String.eqb_spec n name) as [->|Hne].
  - destruct Hin as [E | Hin]; [now inversion E|].
    exfalso. apply Hn. apply in_map_iff. now exists (name, File contents).
  - destruct Hin as [E | Hin]; [inversion E; contradiction|].
    now apply IH.
Qed.

End LoaderFacts.

(* ================================================================= *)
(** ** Properties of the loader *)

(** C5: when the content directory does not exist, [getAllArticles]
    returns the empty array; it does not throw. *)
Theorem getAllArticles_without_directory
  (matter : string -> Result (FrontMatter * string)) :
  Markdown.getAllArticles matter None = Ok [].
Proof. reflexivity. Qed.

(** C3: a listing returned by [getAllArticles] is in descending order of
    date: for adjacent positions [i] and [i+1], the date at [i] is not
    below the date at [i+1] in the order of [<] on strings. *)
Theorem getAllArticles_sorted_by_date
  (matter : string -> Result (FrontMatter * string)) (fs : FileSystem)
  (out : list ArticleSummary) (i : nat) (a b : ArticleSummary) :
  Markdown.getAllArticles matter fs = Ok out ->
  nth_error out i = Some a ->
  nth_error out (S i) = Some b ->
  (date a <? date b)%string = false.
Proof.
  intros H Ha Hb. destruct fs as [entries|].
  - apply getAllArticles_Ok in H. destruct H as [loaded [_ ->]].
    apply (Sorted_adjacent Spec.date_ge _ i a b
             (sort_sorted Markdown.by_date Spec.date_ge
                by_date_neg by_date_pos loaded) Ha Hb).
  - inversion H; subst. destruct i; discriminate.
Qed.

Lemma getAllArticles_sorted_by_date_witness :
  Markdown.getAllArticles Sample.matter Sample.two_files
    = Ok [Sample.june_summary; Sample.january_summary]
  /\ ("2025-06-01" <? "2025-01-01")%string = false.
Proof.
  split; [reflexivity|].
  apply (getAllArticles_sorted_by_date Sample.matter Sample.two_files
           [Sample.june_summary; Sample.january_summary] 0
           Sample.june_summary Sample.january_summary); reflexivity.
Defined.

(** C6: in a listing returned by [getAllArticles], every file [s.md] of
    the directory has exactly one summary with slug [s]; every summary
    comes from such a file, so other files have none and there are as
    many summaries as [.md] files; the slugs are pairwise distinct,
    file names being so. *)
Theorem one_summary_per_md_file
  (matter : string -> Result (FrontMatter * string)) (entries : Directory)
  (out : list ArticleSummary) :
  NoDup (map fst entries) ->
  Markdown.getAllArticles matter (Some entries) = Ok out ->
  (forall s, In (s ++ ".md")%string (map fst entries) ->
     count_occ string_dec (map slug out) s = 1%nat)
  /\ (forall a, In a out -> In (slug a ++ ".md")%string (map fst entries))
  /\ length out
     = length (filter (fun name => endsWith name ".md") (map fst entries))
  /\ NoDup (map slug out).
Proof.
  intros HN H.
  pose proof (getAllArticles_slugs matter _ _ H) as HP.
  pose proof (getAllArticles_slugs_NoDup matter _ _ HN H) as HD.
  repeat split.
  - intros s Hs. apply NoDup_count_occ'; [exact HD|].
    apply (Permutation_in _ (Permutation_sym HP)).
    apply in_map_iff. exists (s ++ ".md")%string.
    split; [apply replace_md_suffix_append|].
    apply filter_In. split; [exact Hs|].
    apply endsWith_iff. now exists s.
  - intros a Ha. now apply (getAllArticles_origin matter entries out a H).
  - apply Permutation_length in HP. now rewrite !length_map in HP.
  - exact HD.
Qed.

Lemma one_summary_per_md_file_witness :
  count_occ string_dec
    (map slug [Sample.june_summary; Sample.january_summary]) "june" = 1%nat.
Proof.
  refine (proj1 (one_summary_per_md_file Sample.matter
    [ ("january.md", File Sample.january_md);
      ("notes.txt", File "not an article");
      ("june.md", File Sample.june_md) ]
    [Sample.june_summary; Sample.january_summary] _ _) "june" _).
  - repeat constructor; simpl; intuition discriminate.
  - reflexivity.
  - simpl. auto.
Defined.

(** C2, the claim as stated, fails: with one file whose front matter
    does not parse among parseable ones, [getAllArticles] returns no
    listing at all. *)
Lemma getAllArticles_does_not_skip_broken_file :
  Sample.matter Sample.broken_md = Throw YAMLException
  /\ Sample.matter Sample.january_md = Ok (Sample.january, "# January")
  /\ Sample.matter Sample.june_md = Ok (Sample.june, "# June")
  /\ Markdown.getAllArticles Sample.matter Sample.with_broken_file
     = Throw YAMLException
  /\ ~ exists out,
         Markdown.getAllArticles Sample.matter Sample.with_broken_file = Ok out.
Proof.
  repeat split; try reflexivity. intros [out H]. discriminate.
Qed.

(** [getAllArticles] returns a listing when every [.md] file of the
    directory is read and parsed. *)
Lemma getAllArticles_returns
  (matter : string -> Result (FrontMatter * string)) (entries : Directory) :
  (forall name, In name (map fst entries) -> endsWith name ".md" = true ->
     exists a, Markdown.load_summary matter (Some entries) name = Ok a) ->
  exists out, Markdown.getAllArticles matter (Some entries) = Ok out.
Proof.
  intros Hall. unfold Markdown.getAllArticles. simpl.
  destruct (array_map_total (Markdown.load_summary matter (Some entries))
              (filter (fun n => endsWith n ".md") (map fst entries)))
    as [loaded ->].
  - intros name Hname. apply filter_In in Hname. now apply Hall.
  - simpl. now eexists.
Qed.

(** C2, amended: when the front matter of some [.md] file of the
    directory fails to parse, [getAllArticles] throws: the failure ends
    the listing, no file is skipped. *)
Theorem getAllArticles_throws_on_unparseable_file
  (matter : string -> Result (FrontMatter * string)) (entries : Directory)
  (name contents : string) (e : Error) :
  NoDup (map fst entries) ->
  In (name, File contents) entries ->
  endsWith name ".md" = true ->
  matter contents = Throw e ->
  exists e', Markdown.getAllArticles matter (Some entries) = Throw e'.
Proof.
  intros HN Hin Hmd Hm.
  assert (Hload : Markdown.load_summary matter (Some entries) name = Throw e).
  { unfold Markdown.load_summary.
    rewrite (readFileSync_entry entries name contents HN Hin). simpl.
    now rewrite Hm. }
  unfold Markdown.getAllArticles. simpl.
  destruct (array_map_Throw (Markdown.load_summary matter (Some entries))
              (filter (fun n => endsWith n ".md") (map fst entries))
              name e) as [e' He'].
  - apply filter_In. split; [|exact Hmd].
    apply in_map_iff. now exists (name, File contents).
  - exact Hload.
  - rewrite He'. now exists e'.
Qed.

Lemma getAllArticles_throws_on_unparseable_file_witness :
  exists e', Markdown.getAllArticles Sample.matter Sample.with_broken_file
             = Throw e'.
Proof.
  refine (getAllArticles_throws_on_unparseable_file Sample.matter
    [ ("january.md", File Sample.january_md);
      ("broken.md", File Sample.broken_md);
      ("june.md", File Sample.june_md) ]
    "broken.md" Sample.broken_md YAMLException _ _ _ _).
  - repeat constructor; simpl; intuition discriminate.
  - simpl. auto.
  - reflexivity.
  - reflexivity.
Defined.

(* ================================================================= *)
(** ** Properties of the renderer entry point *)

Section RendererFacts.

Variable matter : string -> Result (FrontMatter * string).
Variable process : string -> Result string.
Variable outside : nat -> list string -> Result string.

(** Reading a name the directory does not have raises [ENOENT]. *)
Lemma readFileSync_missing (fs : FileSystem) (name : string) :
  ~ In name (Spec.file_names fs) -> readFileSync fs name = Throw ENOENT.
Proof.
  destruct fs as [entries|]; [|reflexivity]. simpl.
  induction entries as [|[n e] entries IH]; intros Hn; [reflexivity|].
  simpl in *. destruct (String.eqb_spec n name) as [->|_].
  - exfalso. apply Hn. now left.
  - apply IH. intros H. apply Hn. now right.
Qed.

(** A slug without separator gives a path of one segment. *)
Lemma segments_of_plain (slug : string) :
  includes slug "/" = false ->
  segments_of (slug ++ ".md") = [(slug ++ ".md")%string].
Proof.
  induction slug as [|c slug IH]; intros H; [reflexivity|].
  cbn [includes] in H. apply orb_false_iff in H. destruct H as [Hp Hs].
  cbn [append segments_of].
  destruct (Ascii.eqb_spec c "/") as [->|_].
  - simpl in Hp. destruct slug; discriminate.
  - now rewrite (IH Hs).
Qed.

Lemma md_path_not_short (slug short : string) :
  (String.length short < 3)%nat -> (slug ++ ".md" =? short)%string = false.
Proof.
  intros Hlen. apply String.eqb_neq. intros E.
  apply (f_equal String.length) in E. rewrite length_append in E.
  simpl in E. lia.
Qed.

(** [path.join] leaves such a path alone: it names an entry. *)
Lemma path_join_plain (slug : string) :
  includes slug "/" = false ->
  path_join (slug ++ ".md") = InDirectory (slug ++ ".md").
Proof.
  intros H. unfold path_join. rewrite (segments_of_plain slug H).
  cbn [fold_left join_segment].
  rewrite !md_path_not_short by (simpl; lia). reflexivity.
Qed.

(** Reading at the name of an entry reads the entry. *)
Lemma readJoined_entry (fs : FileSystem) (name : string) :
  In name (Spec.file_names fs) ->
  readJoined outside fs name = readFileSync fs name.
Proof.
  intros Hin. unfold readJoined. destruct fs as [entries|]; [|contradiction].
  simpl in Hin. apply in_map_iff in Hin. destruct Hin as [e [E He]].
  assert (Hex : existsb (fun x => (fst x =? name)%string) entries = true).
  { apply existsb_exists. exists e. split; [exact He|]. now apply String.eqb_eq. }
  now rewrite Hex.
Qed.

(** For a slug without separator the path read is the entry [slug.md]. *)
Lemma readJoined_plain (fs : FileSystem) (slug : string) :
  includes slug "/" = false ->
  readJoined outside fs (slug ++ ".md") = readFileSync fs (slug ++ ".md").
Proof.
  intros H. unfold readJoined. rewrite (path_join_plain slug H).
  now destruct (match fs with
                | Some entries =>
                    existsb (fun e => (fst e =? slug ++ ".md")%string) entries
                | None => false
                end).
Qed.

(** The function returns [null] exactly when its [try] block threw. *)
Lemma getArticleBySlug_cases (fs : FileSystem) (slug : string) :
  (exists e, Markdown.render_article matter process outside fs slug = Throw e
             /\ Markdown.getArticleBySlug matter process outside fs slug
                = Ok None)
  \/ (exists art, Markdown.render_article matter process outside fs slug = Ok art
                  /\ Markdown.getArticleBySlug matter process outside fs slug
                     = Ok (Some art)).
Proof.
  unfold Markdown.getArticleBySlug.
  destruct (Markdown.render_article matter process outside fs slug) as [art|e].
  - right. now exists art.
  - left. now exists e.
Qed.

Lemma render_article_Ok (fs : FileSystem) (slug : string) (art : Article) :
  Markdown.render_article matter process outside fs slug = Ok art ->
  exists contents data body html,
    readJoined outside fs (slug ++ ".md") = Ok contents
    /\ matter contents = Ok (data, body)
    /\ process body = Ok html
    /\ art = {| meta := Markdown.summary_of slug data; content := html |}.
Proof.
  unfold Markdown.render_article. intros H.
  apply bind_Ok in H. destruct H as [contents [Hr H]].
  apply bind_Ok in H. destruct H as [[data body] [Hm H]].
  apply bind_Ok in H. destruct H as [html [Hp H]].
  inversion H; subst. now exists contents, data, body, html.
Qed.

End RendererFacts.

(** C4, the claim as stated, fails: the directory has no file named
    [./june.md] nor [../articles/june.md], yet for these slugs
    [getArticleBySlug] returns an article, the one of [june.md], which
    [path.join] makes of both paths. *)
Lemma getArticleBySlug_resolves_path_segments :
  ~ In "./june.md" (Spec.file_names Sample.three_files)
  /\ ~ In "../articles/june.md" (Spec.file_names Sample.three_files)
  /\ Markdown.getArticleBySlug Sample.matter Sample.process
       SamplePaths.nothing_outside Sample.three_files "./june"
     = Ok (Some {| meta := Markdown.summary_of "./june" Sample.june;
                   content := "<p># June</p>" |})
  /\ Markdown.getArticleBySlug Sample.matter Sample.process
       SamplePaths.nothing_outside Sample.three_files "../articles/june"
     = Ok (Some {| meta := Markdown.summary_of "../articles/june" Sample.june;
                   content := "<p># June</p>" |}).
Proof.
  repeat split; try reflexivity; simpl; intuition discriminate.
Qed.

(** C4, amended: [getArticleBySlug] always returns and never throws; it
    returns [null] when reading the path [path.join] makes of [slug.md]
    raises, as it does for a slug without separator when the directory
    has no file of that name, when the front matter does not parse, and
    when the rendering pipeline raises: the same value for every
    cause. *)
Theorem getArticleBySlug_null_on_failure
  (matter : string -> Result (FrontMatter * string))
  (process : string -> Result string)
  (outside : nat -> list string -> Result string)
  (fs : FileSystem) (slug : string) :
  (exists r, Markdown.getArticleBySlug matter process outside fs slug = Ok r)
  /\ ((includes slug "/" = false
       /\ ~ In (slug ++ ".md")%string (Spec.file_names fs))
      \/ (exists e, readJoined outside fs (slug ++ ".md") = Throw e)
      \/ (exists contents e,
            readJoined outside fs (slug ++ ".md") = Ok contents
            /\ matter contents = Throw e)
      \/ (exists contents data body e,
            readJoined outside fs (slug ++ ".md") = Ok contents
            /\ matter contents = Ok (data, body)
            /\ process body = Throw e)
      -> Markdown.getArticleBySlug matter process outside fs slug = Ok None).
Proof.
  split.
  - destruct (getArticleBySlug_cases matter process outside fs slug)
      as [[e [_ H]] | [art [_ H]]]; rewrite H; eexists; reflexivity.
  - unfold Markdown.getArticleBySlug, Markdown.render_article.
    intros [[Hplain Hno] | [[e Hr] | [[c [e [Hr Hm]]] | [c [d [b [e [Hr [Hm Hp]]]]]]]]].
    + rewrite (readJoined_plain outside fs slug Hplain).
      now rewrite (readFileSync_missing fs _ Hno).
    + now rewrite Hr.
    + rewrite Hr. simpl. now rewrite Hm.
    + rewrite Hr. simpl. rewrite Hm. simpl. now rewrite Hp.
Qed.

Lemma getArticleBySlug_null_on_failure_witness :
  Markdown.getArticleBySlug Sample.matter Sample.process
    SamplePaths.nothing_outside Sample.three_files "nope" = Ok None
  /\ Markdown.getArticleBySlug Sample.matter Sample.process
       SamplePaths.nothing_outside Sample.three_files "../README" = Ok None
  /\ Markdown.getArticleBySlug Sample.matter Sample.process
       SamplePaths.nothing_outside Sample.three_files "january" = Ok None.
Proof.
  split; [|split].
  - apply (proj2 (getArticleBySlug_null_on_failure Sample.matter Sample.process
                    SamplePaths.nothing_outside Sample.three_files "nope")).
    left. split; [reflexivity|]. simpl. intuition discriminate.
  - apply (proj2 (getArticleBySlug_null_on_failure Sample.matter Sample.process
                    SamplePaths.nothing_outside Sample.three_files "../README")).
    right; left. exists ENOENT. reflexivity.
  - apply (proj2 (getArticleBySlug_null_on_failure Sample.matter Sample.process
                    SamplePaths.nothing_outside Sample.three_files "january")).
    right; right; right.
    exists Sample.january_md, Sample.january, "# January", RenderError.
    repeat split; reflexivity.
Defined.




Lemma NoDup_map_eq {X Y : Type} (f : X -> Y) (l : list X) (x y : X) :
  NoDup (map f l) -> In x l -> In y l -> f x = f y -> x = y.
Proof.
  induction l as [|z l IH]; intros HN Hx Hy E; [contradiction|].
  simpl in HN. inversion HN as [|? ? Hz HN']; subst.
  destruct Hx as [-> | Hx], Hy as [-> | Hy].
  - reflexivity.
  - exfalso. apply Hz. rewrite E. now apply in_map.
  - exfalso. apply Hz. rewrite <- E. now apply in_map.
  - now apply IH.
Qed.

(** C10: for a file [s.md] whose front matter gives [image] a falsy
    value (the empty string, or the key left out, [null], [false], [0],
    [NaN]), the one summary of slug [s] in a listing returned by
    [getAllArticles], and the article returned by [getArticleBySlug],
    have [image] undefined. *)
Theorem falsy_image_is_undefined
  (matter : string -> Result (FrontMatter * string))
  (process : string -> Result string)
  (outside : nat -> list string -> Result string) (entries : Directory)
  (s contents body : string) (data : FrontMatter) :
  NoDup (map fst entries) ->
  In ((s ++ ".md")%string, File contents) entries ->
  matter contents = Ok (data, body) ->
  truthy (fm_image data) = false ->
  (forall out, Markdown.getAllArticles matter (Some entries) = Ok out ->
     exists a, In a out /\ slug a = s /\ image a = Undefined
               /\ forall a', In a' out -> slug a' = s -> a' = a)
  /\ (forall art,
        Markdown.getArticleBySlug matter process outside (Some entries) s
        = Ok (Some art) ->
        image (meta art) = Undefined).
Proof.
  intros HN Hin Hm Hfalsy.
  pose proof (readFileSync_entry entries _ _ HN Hin) as Hread.
  assert (Himg : image (Markdown.summary_of s data) = Undefined).
  { simpl. unfold or_else. now rewrite Hfalsy. }
  split.
  - intros out Hout.
    pose proof (getAllArticles_slugs_NoDup matter _ _ HN Hout) as HD.
    assert (Hs : In s (map slug out)).
    { apply (Permutation_in _
               (Permutation_sym (getAllArticles_slugs matter _ _ Hout))).
      apply in_map_iff. exists (s ++ ".md")%string.
      split; [apply replace_md_suffix_append|].
      apply filter_In. split.
      - apply in_map_iff. now exists ((s ++ ".md")%string, File contents).
      - apply endsWith_iff. now exists s. }
    apply in_map_iff in Hs. destruct Hs as [a [Hslug Ha]].
    exists a. repeat split; [exact Ha | exact Hslug | |].
    + destruct (getAllArticles_origin matter entries out a Hout Ha)
        as [_ [c [d [b [Hr [Hm' Ea]]]]]].
      rewrite Hslug in Hr, Ea. rewrite Hread in Hr. inversion Hr; subst c.
      rewrite Hm in Hm'. inversion Hm'; subst d b.
      rewrite Ea. exact Himg.
    + intros a' Ha' Hslug'. apply (NoDup_map_eq slug out); auto. congruence.
  - intros art Hart.
    destruct (getArticleBySlug_cases matter process outside (Some entries) s)
      as [[e [_ H]] | [art' [Hr H]]]; rewrite H in Hart; [discriminate|].
    inversion Hart; subst art'.
    apply render_article_Ok in Hr.
    destruct Hr as [c [d [b [html [Hr [Hm' [_ ->]]]]]]].
    rewrite (readJoined_entry outside (Some entries) (s ++ ".md")) in Hr
      by (apply in_map_iff; now exists ((s ++ ".md")%string, File contents)).
    rewrite Hread in Hr. inversion Hr; subst c.
    rewrite Hm in Hm'. inversion Hm'; subst d b.
    exact Himg.
Qed.

Lemma falsy_image_is_undefined_witness :
  fm_image Sample.solana = Str ""
  /\ (exists a,
        In a [Sample.june_summary; Sample.rails; Sample.january_summary]
        /\ slug a = "rails" /\ image a = Undefined)
  /\ exists art,
       Markdown.getArticleBySlug Sample.matter Sample.process
         SamplePaths.nothing_outside Sample.three_files "rails" = Ok (Some art)
       /\ image (meta art) = Undefined.
Proof.
  assert (H := falsy_image_is_undefined Sample.matter Sample.process
    SamplePaths.nothing_outside
    [ ("january.md", File Sample.january_md);
      ("june.md", File Sample.june_md);
      ("rails.md", File Sample.solana_md) ]
    "rails" Sample.solana_md "# Rails" Sample.solana).
  destruct H as [Hlist Hrender].
  - repeat constructor; simpl; intuition discriminate.
  - simpl. auto.
  - reflexivity.
  - reflexivity.
  - split; [reflexivity|]. split.
    + destruct (Hlist [Sample.june_summary; Sample.rails; Sample.january_summary]
                  eq_refl) as [a [Ha [Hs [Hi _]]]].
      now exists a.
    + eexists. split; [reflexivity|]. apply Hrender. reflexivity.
Defined.

(* ================================================================= *)
(** ** [Map] *)

Section MapFacts.

Context {V : Type}.

Lemma Map_set_keys (k : string) (v : V) (m : list (string * V)) (k' : string) :
  In k' (map fst (Map_set k v m)) <-> k' = k \/ In k' (map fst m).
Proof.
  induction m as [|[k0 v0] m IH]; simpl.
  - intuition auto.
  - destruct (String.eqb_spec k k0) as [->|Hne]; simpl.
    + intuition auto.
    + rewrite IH. intuition auto.
Qed.

Lemma Map_set_NoDup (k : string) (v : V) (m : list (string * V)) :
  NoDup (map fst m) -> NoDup (map fst (Map_set k v m)).
Proof.
  induction m as [|[k0 v0] m IH]; simpl; intros HN.
  - repeat constructor. intros [].
  - inversion HN as [|? ? Hk0 HN']; subst.
    destruct (String.eqb_spec k k0) as [->|Hne]; simpl.
    + now constructor.
    + constructor; [|now apply IH].
      rewrite Map_set_keys. intros [E | Hin]; [congruence | contradiction].
Qed.

Lemma Map_set_entries (k : string) (v : V) (m : list (string * V))
  (kv : string * V) :
  In kv (Map_set k v m) -> kv = (k, v) \/ In kv m.
Proof.
  induction m as [|[k0 v0] m IH]; simpl.
  - intuition auto.
  - destruct (String.eqb k k0); simpl; intuition auto.
Qed.

(** A [Map] built from entries has each key of the entries once, and
    holds for a key one of the values the entries give it. *)
Lemma Map_new_spec (entries : list (string * V)) :
  NoDup (map fst (Map_new entries))
  /\ (forall k, In k (map fst (Map_new entries)) <-> In k (map fst entries))
  /\ (forall kv, In kv (Map_new entries) -> In kv entries).
Proof.
  unfold Map_new.
  assert (H : forall m,
    NoDup (map fst m) ->
    let m' := fold_left (fun m kv => Map_set (fst kv) (snd kv) m) entries m in
    NoDup (map fst m')
    /\ (forall k, In k (map fst m')
                  <-> In k (map fst m) \/ In k (map fst entries))
    /\ (forall kv, In kv m' -> In kv m \/ In kv entries)).
  { induction entries as [|[k v] entries IH]; intros m HN; simpl.
    - intuition auto.
    - destruct (IH (Map_set k v m) (Map_set_NoDup k v m HN)) as [H1 [H2 H3]].
      split; [exact H1|]. split.
      + intros k'. rewrite H2, Map_set_keys. intuition auto.
      + intros kv Hkv. destruct (H3 kv Hkv) as [Hin | Hin]; [|auto].
        apply Map_set_entries in Hin. intuition auto. }
  destruct (H [] (NoDup_nil _)) as [H1 [H2 H3]]. simpl in *.
  split; [exact H1|]. split.
  - intros k. rewrite H2. intuition auto.
  - intros kv Hkv. destruct (H3 kv Hkv) as [[] | Hin]. exact Hin.
Qed.

End MapFacts.

(* ================================================================= *)
(** ** The sitemap *)

Section SitemapFacts.

Import Sitemap.

Variable matter : string -> Result (FrontMatter * string).
Variable toISOString : string -> Result string.
Variable currentDate : string.

Lemma article_url_inj (s1 s2 : string) :
  article_url s1 = article_url s2 -> s1 = s2.
Proof.
  unfold article_url. intros H.
  now apply append_inj_l, append_inj_l in H.
Qed.

Lemma article_url_not_author_url (s x : string) :
  article_url s <> author_url x.
Proof.
  unfold article_url, author_url. intros H.
  apply append_inj_l in H. simpl in H. discriminate.
Qed.

Lemma article_url_not_base (s : string) : article_url s <> baseUrl.
Proof.
  unfold article_url. intros H. apply (f_equal String.length) in H.
  rewrite !length_append in H. simpl in H. lia.
Qed.

Lemma author_url_not_base (x : string) : author_url x <> baseUrl.
Proof.
  unfold author_url. intros H. apply (f_equal String.length) in H.
  rewrite !length_append in H. simpl in H. lia.
Qed.

Lemma article_pages_urls (l : list ArticleSummary) (pages : list SitemapEntry) :
  array_map (article_page toISOString) l = Ok pages ->
  map url pages = map (fun a => article_url (slug a)) l.
Proof.
  intros H. apply array_map_Ok in H.
  induction H as [|a p l pages Hp _ IH]; simpl; [reflexivity|].
  unfold article_page in Hp. apply bind_Ok in Hp.
  destruct Hp as [modified [_ Hp]]. inversion Hp; subst. simpl. now rewrite IH.
Qed.

Lemma author_pages_urls (l : list ArticleSummary) (pages : list SitemapEntry) :
  array_map (author_page toISOString) l = Ok pages ->
  map url pages = map (fun a => author_url (author a)) l.
Proof.
  intros H. apply array_map_Ok in H.
  induction H as [|a p l pages Hp _ IH]; simpl; [reflexivity|].
  unfold author_page in Hp. apply bind_Ok in Hp.
  destruct Hp as [modified [_ Hp]]. inversion Hp; subst. simpl. now rewrite IH.
Qed.

(** The deduplicated author pages carry each author URL once. *)
Lemma unique_pages_urls (pages : list SitemapEntry) :
  let unique :=
    Map_values (Map_new (map (fun page => (url page, page)) pages)) in
  NoDup (map url unique)
  /\ forall u, In u (map url unique) <-> In u (map url pages).
Proof.
  cbv zeta. unfold Map_values.
  destruct (Map_new_spec (map (fun page => (url page, page)) pages))
    as [H1 [H2 H3]].
  assert (E : map url (map snd (Map_new (map (fun page => (url page, page)) pages)))
              = map fst (Map_new (map (fun page => (url page, page)) pages))).
  { rewrite map_map. apply map_ext_in. intros [k p] Hkp.
    apply H3, in_map_iff in Hkp. destruct Hkp as [p' [E _]].
    inversion E; subst. reflexivity. }
  rewrite E. split; [exact H1|].
  intros u. rewrite H2, map_map. simpl. reflexivity.
Qed.

(** The shape of a generated sitemap. *)
Lemma sitemap_Ok (fs : FileSystem) (out : list SitemapEntry) :
  sitemap matter toISOString currentDate fs = Ok out ->
  exists articles articlePages authorPages,
    Markdown.getAllArticles matter fs = Ok articles
    /\ array_map (article_page toISOString) articles = Ok articlePages
    /\ array_map (author_page toISOString) articles = Ok authorPages
    /\ out = staticPages currentDate ++ articlePages
             ++ Map_values
                  (Map_new (map (fun page => (url page, page)) authorPages)).
Proof.
  unfold sitemap. intros H.
  apply bind_Ok in H. destruct H as [articles [Ha H]].
  apply bind_Ok in H. destruct H as [articlePages [Hp H]].
  apply bind_Ok in H. destruct H as [authorPages [Hq H]].
  inversion H; subst. now exists articles, articlePages, authorPages.
Qed.

Lemma getAllArticles_fs_NoDup (fs : FileSystem) (articles : list ArticleSummary) :
  NoDup (Spec.file_names fs) ->
  Markdown.getAllArticles matter fs = Ok articles ->
  NoDup (map slug articles).
Proof.
  destruct fs as [entries|]; simpl.
  - apply getAllArticles_slugs_NoDup.
  - intros _ H. inversion H. constructor.
Qed.

End SitemapFacts.

(** C9: a generated sitemap has, for every article of the loader's
    listing, exactly one entry at [baseUrl/article/slug] and exactly one
    entry at [baseUrl/author/] followed by the author's name in lower
    case with every run of white space turned into a hyphen, however
    many articles share that author slug; apart from the page at
    [baseUrl] it has no other entry. *)
Theorem sitemap_one_entry_per_article_and_author
  (matter : string -> Result (FrontMatter * string))
  (toISOString : string -> Result string) (currentDate : string)
  (fs : FileSystem) (out : list Sitemap.SitemapEntry) :
  NoDup (Spec.file_names fs) ->
  Sitemap.sitemap matter toISOString currentDate fs = Ok out ->
  exists articles,
    Markdown.getAllArticles matter fs = Ok articles
    /\ (forall a, In a articles ->
          count_occ string_dec (map Sitemap.url out)
            (Sitemap.baseUrl ++ "/article/" ++ slug a)%string = 1%nat)
    /\ (forall a, In a articles ->
          count_occ string_dec (map Sitemap.url out)
            (Sitemap.baseUrl ++ "/author/"
               ++ replace_spaces (toLowerCase (author a)))%string = 1%nat)
    /\ (forall e, In e out ->
          Sitemap.url e = Sitemap.baseUrl
          \/ (exists a, In a articles
                /\ Sitemap.url e = Sitemap.article_url (slug a))
          \/ (exists a, In a articles
                /\ Sitemap.url e = Sitemap.author_url (author a))).
Proof.
  intros HN H. apply sitemap_Ok in H.
  destruct H as [articles [articlePages [authorPages [Ha [Hp [Hq ->]]]]]].
  exists articles. split; [exact Ha|].
  pose proof (article_pages_urls toISOString _ _ Hp) as Eart.
  pose proof (author_pages_urls toISOString _ _ Hq) as Eaut.
  destruct (unique_pages_urls authorPages) as [Hnd Hin]. cbv zeta in Hnd, Hin.
  pose proof (getAllArticles_fs_NoDup matter fs articles HN Ha) as Hslugs.
  set (unique := Map_values
         (Map_new (map (fun page => (Sitemap.url page, page)) authorPages))) in *.
  assert (Hurls : map Sitemap.url
                    (Sitemap.staticPages currentDate ++ articlePages ++ unique)
                  = Sitemap.baseUrl
                    :: map (fun a => Sitemap.article_url (slug a)) articles
                    ++ map Sitemap.url unique).
  { simpl. now rewrite map_app, Eart. }
  assert (Hnd_art : NoDup (map (fun a => Sitemap.article_url (slug a)) articles)).
  { rewrite <- (map_map slug Sitemap.article_url).
    apply NoDup_map_on; [|exact Hslugs].
    intros x y _ _. apply article_url_inj. }
  split; [|split].
  - intros a Hin_a. rewrite Hurls. fold (Sitemap.article_url (slug a)).
    rewrite count_occ_cons_neq, count_occ_app
      by (intros E; symmetry in E; now apply article_url_not_base in E).
    rewrite (proj1 (NoDup_count_occ' string_dec _) Hnd_art)
      by (apply in_map_iff; now exists a).
    rewrite (proj1 (count_occ_not_In string_dec _ _)); [reflexivity|].
    intros Hu. apply Hin in Hu. rewrite Eaut in Hu.
    apply in_map_iff in Hu. destruct Hu as [b [E _]].
    symmetry in E. now apply article_url_not_author_url in E.
  - intros a Hin_a. rewrite Hurls.
    fold (Sitemap.author_slug (author a)). fold (Sitemap.author_url (author a)).
    rewrite count_occ_cons_neq, count_occ_app
      by (intros E; symmetry in E; now apply author_url_not_base in E).
    rewrite (proj1 (count_occ_not_In string_dec _ _)).
    + simpl. apply NoDup_count_occ'; [exact Hnd|].
      apply Hin. rewrite Eaut. apply in_map_iff. now exists a.
    + intros Hu. apply in_map_iff in Hu. destruct Hu as [b [E _]].
      now apply article_url_not_author_url in E.
  - intros e He. simpl in He. destruct He as [<- | He]; [now left|].
    apply in_app_or in He. destruct He as [He | He].
    + right; left. apply (in_map Sitemap.url) in He. rewrite Eart in He.
      apply in_map_iff in He. destruct He as [a [E Ha']]. now exists a.
    + right; right. apply (in_map Sitemap.url) in He. apply Hin in He.
      rewrite Eaut in He. apply in_map_iff in He.
      destruct He as [a [E Ha']]. now exists a.
Qed.

Lemma sitemap_one_entry_per_article_and_author_witness :
  exists out,
    Sitemap.sitemap Sample.matter Sample.toISOString "2026-01-01T00:00:00.000Z"
      Sample.three_files = Ok out
    /\ count_occ string_dec (map Sitemap.url out)
         "https://blog.zendfi.tech/author/the-zendfi-team" = 1%nat.
Proof.
  eexists. split; [reflexivity|].
  destruct (sitemap_one_entry_per_article_and_author Sample.matter
              Sample.toISOString "2026-01-01T00:00:00.000Z" Sample.three_files
              _ ltac:(repeat constructor; simpl; intuition discriminate)
              eq_refl)
    as [articles [Ha [_ [Hauthor _]]]].
  inversion Ha; subst articles.
  apply (Hauthor Sample.rails). simpl. auto.
Defined.

(* ================================================================= *)
(** ** More on strings *)

Lemma append_assoc (a b c : string) :
  ((a ++ b) ++ c)%string = (a ++ b ++ c)%string.
Proof. induction a; simpl; congruence. Qed.

Lemma append_empty_r (a : string) : (a ++ "")%string = a.
Proof. induction a; simpl; congruence. Qed.

Lemma lower_unit_idempotent (c : ascii) :
  lower_unit (lower_unit c) = lower_unit c.
Proof. destruct c as [[] [] [] [] [] [] [] []]; reflexivity. Qed.

Lemma toLowerCase_idempotent (s : string) :
  toLowerCase (toLowerCase s) = toLowerCase s.
Proof.
  induction s as [|c s IH]; simpl; [reflexivity|].
  now rewrite lower_unit_idempotent, IH.
Qed.

Lemma toLowerCase_length (s : string) :
  String.length (toLowerCase s) = String.length s.
Proof. induction s; simpl; congruence. Qed.

Lemma toLowerCase_empty (s : string) : toLowerCase s = "" -> s = "".
Proof. destruct s; [reflexivity | discriminate]. Qed.

(** Occurrence is transitive. *)
Lemma includes_trans (s m sub : string) :
  includes s m = true -> includes m sub = true -> includes s sub = true.
Proof.
  rewrite !includes_iff. intros [pre [post ->]] [pre' [post' ->]].
  exists (pre ++ pre')%string, (post' ++ post)%string.
  now rewrite !append_assoc.
Qed.

Lemma includes_empty_only (sub : string) : includes "" sub = true -> sub = "".
Proof.
  rewrite includes_iff. intros [[|a pre] [post H]]; [|discriminate].
  destruct sub; [reflexivity | discriminate].
Qed.

(* ================================================================= *)
(** ** More on the filters *)

Lemma ArticleList_keep_no_criteria (a : ArticleSummary) :
  ArticleList.keep "" "" "" a = true.
Proof.
  unfold ArticleList.keep. cbn [toLowerCase nonempty String.eqb negb].
  now rewrite includes_empty.
Qed.

Lemma filter_incl_pointwise {A : Type} (f g : A -> bool) (l : list A) :
  (forall x, In x l -> f x = true -> g x = true) ->
  forall x, In x (filter f l) -> In x (filter g l).
Proof.
  intros H x Hx. apply filter_In in Hx. destruct Hx as [Hin Hf].
  apply filter_In. split; [exact Hin | now apply H].
Qed.

(** The search box of [ArticleListWithSearch] shows what [ArticleList]
    shows for the same query without selectors: filtering first and
    handing the result to [ArticleList] without props loses nothing. *)
Theorem ArticleListWithSearch_shows_ArticleList_result
  (l : list ArticleSummary) (query : string) :
  ArticleListWithSearch.shown l query
  = ArticleList.filtered (mkProps l (Some query) None None)
  /\ ArticleListWithSearch.shown l query
     = ArticleListWithSearch.filteredArticles l query.
Proof.
  assert (E : ArticleListWithSearch.shown l query
              = ArticleListWithSearch.filteredArticles l query).
  { unfold ArticleListWithSearch.shown, ArticleList.filtered.
    cbn [with_default search selectedTag selectedCategory articles].
    apply filter_all, ArticleList_keep_no_criteria. }
  split; [|exact E]. rewrite E.
  unfold ArticleListWithSearch.filteredArticles, ArticleList.filtered.
  cbn [with_default search selectedTag selectedCategory articles].
  apply filter_ext. intros a. unfold ArticleList.keep.
  cbn [nonempty String.eqb negb]. now rewrite !andb_true_r.
Qed.

(** The letter case of the query is irrelevant to both versions of the
    filter: two queries with the same lower-case form give the same
    result. *)
Theorem filter_ignores_query_case
  (l : list ArticleSummary) (q1 q2 : string) (tag cat : option string) :
  toLowerCase q1 = toLowerCase q2 ->
  ArticleList.filtered (mkProps l (Some q1) tag cat)
  = ArticleList.filtered (mkProps l (Some q2) tag cat)
  /\ ArticleListCopy.filtered (mkProps l (Some q1) tag cat)
     = ArticleListCopy.filtered (mkProps l (Some q2) tag cat).
Proof.
  intros E.
  assert (En : nonempty q1 = nonempty q2).
  { unfold nonempty. f_equal.
    destruct q1, q2; simpl in *; try reflexivity; discriminate. }
  unfold ArticleList.filtered, ArticleListCopy.filtered.
  cbn [with_default search selectedTag selectedCategory articles].
  split; apply filter_ext; intros a.
  - unfold ArticleList.keep. now rewrite E.
  - unfold ArticleListCopy.keep. now rewrite E, En.
Qed.

Lemma filter_ignores_query_case_witness :
  ArticleList.filtered (mkProps [Sample.rails] (Some "SOLANA") None None)
  = ArticleList.filtered (mkProps [Sample.rails] (Some "solana") None None).
Proof.
  apply (proj1 (filter_ignores_query_case [Sample.rails] "SOLANA" "solana"
                  None None eq_refl)).
Defined.

(** With no selector, an article whose title contains the query,
    letter case ignored, is in the result of both versions. *)
Theorem filter_finds_title_substring
  (l : list ArticleSummary) (a : ArticleSummary) (query : string) :
  In a l ->
  Spec.contains_ci (title a) query ->
  In a (ArticleList.filtered (mkProps l (Some query) None None))
  /\ In a (ArticleListCopy.filtered (mkProps l (Some query) None None)).
Proof.
  intros Hin Ht. apply includes_ci in Ht.
  unfold ArticleList.filtered, ArticleListCopy.filtered.
  cbn [with_default search selectedTag selectedCategory articles].
  split; apply filter_In; (split; [exact Hin|]).
  - unfold ArticleList.keep. rewrite Ht. reflexivity.
  - unfold ArticleListCopy.keep. rewrite Ht.
    cbn [String.eqb orb andb]. now rewrite orb_true_r.
Qed.

Lemma filter_finds_title_substring_witness :
  In Sample.january_summary
    (ArticleList.filtered
       (mkProps [Sample.june_summary; Sample.january_summary] (Some "NUA")
          None None)).
Proof.
  apply (proj1 (filter_finds_title_substring
                  [Sample.june_summary; Sample.january_summary]
                  Sample.january_summary "NUA"
                  (or_intror (or_introl eq_refl))
                  (ex_intro _ "ja" (ex_intro _ "ry" eq_refl)))).
Defined.

(** A tag selector that no article carries empties the result, and so
    does a category selector that no article has; for the second
    version the selector must also differ from its "All" word. *)
Theorem filter_by_absent_selector_is_empty
  (l : list ArticleSummary) (query : option string) (sel : string) :
  sel <> "" ->
  ((forall a, In a l -> ~ Spec.has_tag a sel) ->
   forall cat,
     ArticleList.filtered (mkProps l query (Some sel) cat) = []
     /\ (sel <> "All Tags" ->
         ArticleListCopy.filtered (mkProps l query (Some sel) cat) = []))
  /\ ((forall a, In a l -> category a <> Some sel) ->
      forall tag,
        ArticleList.filtered (mkProps l query tag (Some sel)) = []
        /\ (sel <> "All Categories" ->
            ArticleListCopy.filtered (mkProps l query tag (Some sel)) = [])).
Proof.
  intros Hsel.
  assert (Hnone : forall (f : ArticleSummary -> bool),
            (forall a, In a l -> f a = false) -> filter f l = []).
  { intros f Hf. induction l as [|x l IH]; [reflexivity|]. simpl.
    rewrite (Hf x (or_introl eq_refl)). apply IH.
    intros a Ha. apply Hf. now right. }
  split; intros Habs other; split; try intros Hall;
    unfold ArticleList.filtered, ArticleListCopy.filtered;
    cbn [with_default search selectedTag selectedCategory articles];
    apply Hnone; intros a Ha; apply not_true_is_false; intros Hk.
  - apply ArticleList_keep_iff in Hk. destruct Hk as [_ [Ht _]].
    apply (Habs a Ha), Ht. congruence.
  - apply ArticleListCopy_keep_iff in Hk.
    destruct Hk as [_ [[E | [E | Ht]] _]]; try contradiction.
    now apply (Habs a Ha).
  - apply ArticleList_keep_iff in Hk. destruct Hk as [_ [_ Hc]].
    apply (Habs a Ha), Hc. congruence.
  - apply ArticleListCopy_keep_iff in Hk.
    destruct Hk as [_ [_ [E | [E | Hc]]]]; try contradiction.
    now apply (Habs a Ha).
Qed.

Lemma filter_by_absent_selector_is_empty_witness :
  ArticleList.filtered
    (mkProps [Sample.june_summary; Sample.rails] None (Some "AI") None) = [].
Proof.
  refine (proj1 (proj1 (filter_by_absent_selector_is_empty
            [Sample.june_summary; Sample.rails] None "AI" _) _ None)).
  - discriminate.
  - intros a [<- | [<- | []]] [ts [E Hin]]; inversion E; subst;
      simpl in Hin; intuition discriminate.
Defined.

(** How the two versions of [ArticleList] differ: unless a selector is
    one of the words "All Tags" and "All Categories", the second version
    returns the articles of the first version's result whose title or
    description contains the query, and no other. *)
Theorem ArticleListCopy_is_ArticleList_without_tag_search
  (l : list ArticleSummary) (query tag cat : option string) :
  with_default tag "" <> "All Tags" ->
  with_default cat "" <> "All Categories" ->
  ArticleListCopy.filtered (mkProps l query tag cat)
  = filter
      (fun a =>
         includes (toLowerCase (title a))
           (toLowerCase (with_default query ""))
         || includes (toLowerCase (description a))
              (toLowerCase (with_default query "")))
      (ArticleList.filtered (mkProps l query tag cat)).
Proof.
  intros Ht Hc.
  unfold ArticleList.filtered, ArticleListCopy.filtered.
  cbn [search selectedTag selectedCategory articles].
  set (q := with_default query ""). set (t := with_default tag "") in *.
  set (c := with_default cat "") in *.
  apply String.eqb_neq in Ht, Hc.
  induction l as [|a l IH]; [reflexivity|]. simpl. rewrite IH.
  assert (E : ArticleListCopy.keep q t c a
              = ArticleList.keep q t c a
                && (includes (toLowerCase (title a)) (toLowerCase q)
                    || includes (toLowerCase (description a)) (toLowerCase q))).
  { unfold ArticleListCopy.keep, ArticleList.keep, nonempty.
    rewrite Ht, Hc.
    destruct (String.eqb_spec q "") as [->|_].
    - cbn [toLowerCase]. rewrite !includes_empty.
      destruct (t =? "")%string, (c =? "")%string; simpl;
        now rewrite ?andb_true_r.
    - destruct (includes (toLowerCase (title a)) (toLowerCase q)),
        (includes (toLowerCase (description a)) (toLowerCase q)),
        (t =? "")%string, (c =? "")%string; simpl;
        rewrite ?andb_true_r, ?andb_false_r, ?orb_true_r, ?orb_false_r;
        try reflexivity;
        match goal with
        | |- context [match ?x with _ => _ end] => destruct x
        end; simpl; rewrite ?andb_true_r, ?andb_false_r; try reflexivity;
        repeat match goal with
        | |- context [existsb ?f ?ts] => destruct (existsb f ts)
        | |- context [(?x =? ?y)%string] => destruct (x =? y)%string
        | |- context [match ?x with _ => _ end] => destruct x
        end; reflexivity. }
  rewrite E. destruct (ArticleList.keep q t c a); simpl; [|reflexivity].
  reflexivity.
Qed.

Lemma ArticleListCopy_is_ArticleList_without_tag_search_witness :
  ArticleListCopy.filtered (mkProps [Sample.rails] (Some "solana") None None)
  = filter
      (fun a => includes (toLowerCase (title a)) "solana"
                || includes (toLowerCase (description a)) "solana")
      (ArticleList.filtered (mkProps [Sample.rails] (Some "solana") None None)).
Proof.
  apply (ArticleListCopy_is_ArticleList_without_tag_search [Sample.rails]
           (Some "solana") None None); discriminate.
Defined.

(** Lengthening the query never adds a result: when [query] occurs in
    [longer], letter case ignored, every article either version returns
    for [longer] it also returns for [query]. *)
Theorem filter_narrows_with_longer_query
  (l : list ArticleSummary) (query longer : string) (tag cat : option string)
  (a : ArticleSummary) :
  Spec.contains_ci longer query ->
  (In a (ArticleList.filtered (mkProps l (Some longer) tag cat)) ->
   In a (ArticleList.filtered (mkProps l (Some query) tag cat)))
  /\ (In a (ArticleListCopy.filtered (mkProps l (Some longer) tag cat)) ->
      In a (ArticleListCopy.filtered (mkProps l (Some query) tag cat))).
Proof.
  intros Hq. apply includes_ci in Hq.
  assert (Hsub : forall s, includes (toLowerCase s) (toLowerCase longer) = true ->
                           includes (toLowerCase s) (toLowerCase query) = true).
  { intros s Hs. exact (includes_trans _ _ _ Hs Hq). }
  unfold ArticleList.filtered, ArticleListCopy.filtered.
  cbn [with_default search selectedTag selectedCategory articles].
  split; apply filter_incl_pointwise; intros x _.
  - unfold ArticleList.keep. rewrite !andb_true_iff, !orb_true_iff.
    intros [[[[Ht | Hd] | Hg] Htag] Hcat]; (split; [split|]); auto.
    right. destruct (tags x) as [ts|]; [|discriminate].
    apply existsb_exists in Hg. destruct Hg as [t [Hin Ht]].
    apply existsb_exists. exists t. auto.
  - unfold ArticleListCopy.keep. rewrite !andb_true_iff, !orb_true_iff.
    intros [[[[He | Ht] | Hd] Htag] Hcat]; (split; [split|]); auto.
    left; left. apply negb_true_iff, nonempty_false in He. subst longer.
    apply includes_empty_only, toLowerCase_empty in Hq. now subst query.
Qed.

Lemma filter_narrows_with_longer_query_witness :
  In Sample.rails
    (ArticleList.filtered (mkProps [Sample.rails] (Some "Sol") None None)).
Proof.
  apply (proj1 (filter_narrows_with_longer_query [Sample.rails] "Sol" "SOLANA"
                  None None Sample.rails
                  (ex_intro _ "" (ex_intro _ "ana" eq_refl)))).
  simpl. auto.
Defined.

(* ================================================================= *)
(** ** The results inside the search modal *)

(** The modal's own results never miss an article of the page list:
    for the same query and category selector (and no tag selector),
    what either version of [ArticleList] returns is among
    [filteredArticles]. *)
Theorem modal_results_cover_page_list
  (l : list ArticleSummary) (query cat : string) (a : ArticleSummary) :
  (In a (ArticleList.filtered (mkProps l (Some query) None (Some cat))) ->
   In a (SearchModalProviderResults.filteredArticles (Some l) query cat))
  /\ (In a (ArticleListCopy.filtered (mkProps l (Some query) None (Some cat))) ->
      In a (SearchModalProviderResults.filteredArticles (Some l) query cat)).
Proof.
  unfold ArticleList.filtered, ArticleListCopy.filtered,
    SearchModalProviderResults.filteredArticles.
  cbn [with_default search selectedTag selectedCategory articles].
  split; apply filter_incl_pointwise; intros x _.
  - unfold ArticleList.keep. cbn [nonempty String.eqb negb].
    rewrite !andb_true_iff, !orb_true_iff.
    intros [[Hs _] Hc]. split.
    + destruct Hs as [[Ht | Hd] | Hg]; auto.
    + unfold nonempty in Hc. destruct (cat =? "")%string; simpl in Hc; auto.
  - unfold ArticleListCopy.keep. cbn [String.eqb orb].
    rewrite !andb_true_iff, !orb_true_iff.
    intros [[Hs _] Hc]. split.
    + destruct Hs as [[He | Ht] | Hd]; auto.
      left; left; left; left.
      apply negb_true_iff, nonempty_false in He. now subst query.
    + exact Hc.
Qed.

(** A query made of white space only is no query for the modal: its
    results are those of the empty query, the articles of the selected
    category. *)
Theorem modal_results_ignore_blank_query
  (l : option (list ArticleSummary)) (query cat : string) :
  trim query = "" ->
  SearchModalProviderResults.filteredArticles l query cat
  = SearchModalProviderResults.filteredArticles l "" cat.
Proof.
  intros Hblank. unfold SearchModalProviderResults.filteredArticles.
  destruct l as [l|]; [|reflexivity].
  apply filter_ext. intros a. now rewrite Hblank.
Qed.

Lemma modal_results_ignore_blank_query_witness :
  SearchModalProviderResults.filteredArticles
    (Some [Sample.june_summary; Sample.rails]) "   " "Research"
  = SearchModalProviderResults.filteredArticles
      (Some [Sample.june_summary; Sample.rails]) "" "Research".
Proof.
  apply (modal_results_ignore_blank_query
           (Some [Sample.june_summary; Sample.rails]) "   " "Research").
  reflexivity.
Defined.

Lemma modal_results_cover_page_list_witness :
  In Sample.rails
    (SearchModalProviderResults.filteredArticles
       (Some [Sample.june_summary; Sample.rails]) "defi" "Research").
Proof.
  apply (proj1 (modal_results_cover_page_list
                  [Sample.june_summary; Sample.rails] "defi" "Research"
                  Sample.rails)).
  simpl. auto.
Defined.

(* ================================================================= *)
(** ** The filter state *)

Section FilterStateFacts.

Variable dispatch : FilterState -> Event -> option FilterState.
Variable Inv : FilterState -> Prop.
Hypothesis dispatch_keeps :
  forall s e s', Inv s -> dispatch s e = Some s' -> Inv s'.

(** An invariant of every step is an invariant of every run. *)
Lemma run_invariant (events : list Event) (s s' : FilterState) :
  Inv s -> run dispatch s events = Some s' -> Inv s'.
Proof.
  revert s; induction events as [|e events IH]; intros s HI H; simpl in H.
  - now inversion H; subst.
  - destruct (dispatch s e) as [s1|] eqn:E; [|discriminate].
    apply (IH s1); [now apply (dispatch_keeps s e) | exact H].
Qed.

End FilterStateFacts.

Lemma tag_option_value_not_all (tag : string) :
  tag_option_value tag <> "All Tags".
Proof.
  unfold tag_option_value. destruct (String.eqb_spec tag "All Tags");
    [discriminate | assumption].
Qed.

Lemma category_option_value_not_all (cat : string) :
  category_option_value cat <> "All Categories".
Proof.
  unfold category_option_value.
  destruct (String.eqb_spec cat "All Categories"); [discriminate | assumption].
Qed.

(** Under [FilterModalManager] the modal cannot be opened: no handler
    sets [isModalOpen] and every other handler lives inside the modal.
    So no event can happen, the filter state stays the initial one, and
    the [ArticleList] child, whose props the manager overrides, shows
    every article it was given whatever props the page passed. *)
Theorem FilterModalManager_always_shows_all
  (events : list Event) (s : FilterState) (child : ArticleListProps) :
  run FilterModalManager.dispatch initial events = Some s ->
  events = []
  /\ s = initial
  /\ ArticleList.filtered (FilterModalManager.childWithProps s child)
     = articles child
  /\ ArticleListCopy.filtered (FilterModalManager.childWithProps s child)
     = articles child.
Proof.
  intros H. destruct events as [|e events]; [|discriminate].
  inversion H; subst s. split; [reflexivity|]. split; [reflexivity|].
  unfold ArticleList.filtered, ArticleListCopy.filtered,
    FilterModalManager.childWithProps.
  cbn [with_default search selectedTag selectedCategory articles initial
       st_search st_selectedTag st_selectedCategory].
  split; apply filter_all; intros a;
    [apply ArticleList_keep_no_criteria | reflexivity].
Qed.

Lemma FilterModalManager_always_shows_all_witness :
  ArticleList.filtered
    (FilterModalManager.childWithProps initial
       (mkProps [Sample.rails] (Some "zzz") (Some "AI") None))
  = [Sample.rails].
Proof.
  apply (FilterModalManager_always_shows_all [] initial
           (mkProps [Sample.rails] (Some "zzz") (Some "AI") None) eq_refl).
Defined.

(** Under [SearchModalProvider], whatever the user does, the selectors
    handed to [ArticleList] are the empty string or one of the listed
    tags and categories other than the words "All Tags" and
    "All Categories": choosing "All" always reaches the list as the empty
    selector, which [ArticleList.tsx] takes as no selector. *)
Theorem SearchModalProvider_selectors_are_options
  (events : list Event) (s : FilterState) :
  run SearchModalProvider.dispatch initial events = Some s ->
  In (st_selectedTag s) ("" :: SearchModalProvider.tags)
  /\ st_selectedTag s <> "All Tags"
  /\ In (st_selectedCategory s) ("" :: SearchModalProvider.categories)
  /\ st_selectedCategory s <> "All Categories".
Proof.
  apply (run_invariant SearchModalProvider.dispatch
    (fun s => In (st_selectedTag s) ("" :: SearchModalProvider.tags)
              /\ st_selectedTag s <> "All Tags"
              /\ In (st_selectedCategory s) ("" :: SearchModalProvider.categories)
              /\ st_selectedCategory s <> "All Categories")).
  - intros s0 e s' HI Hd. unfold SearchModalProvider.dispatch in Hd.
    destruct e; destruct (isModalOpen s0); simpl in Hd;
      try discriminate; try (inversion Hd; subst; exact HI).
    + destruct (key =? "Enter")%string; inversion Hd; subst; exact HI.
    + destruct (nth_error SearchModalProvider.tags i) as [tag|] eqn:E;
        [|discriminate].
      inversion Hd; subst; simpl. destruct HI as [_ [_ [H3 H4]]].
      split; [|split; [apply tag_option_value_not_all | now split]].
      apply nth_error_In in E. unfold tag_option_value.
      destruct (tag =? "All Tags")%string; [now left | now right].
    + destruct (nth_error SearchModalProvider.categories i) as [cat|] eqn:E;
        [|discriminate].
      inversion Hd; subst; simpl. destruct HI as [H1 [H2 _]].
      split; [exact H1|]. split; [exact H2|].
      split; [|apply category_option_value_not_all].
      apply nth_error_In in E. unfold category_option_value.
      destruct (cat =? "All Categories")%string; [now left | now right].
  - simpl. repeat split; auto; discriminate.
Qed.

Lemma SearchModalProvider_selectors_are_options_witness :
  run SearchModalProvider.dispatch initial
    [OpenFilterModal; SelectTag 2; SelectTag 0; SearchChange "pay";
     SearchKeyDown "Enter"]
  = Some {| isModalOpen := false; st_search := "pay"; st_selectedTag := "";
            st_selectedCategory := "" |}
  /\ "" <> "All Tags".
Proof.
  split; [reflexivity|].
  apply (SearchModalProvider_selectors_are_options
           [OpenFilterModal; SelectTag 2; SelectTag 0; SearchChange "pay";
            SearchKeyDown "Enter"]
           {| isModalOpen := false; st_search := "pay"; st_selectedTag := "";
              st_selectedCategory := "" |} eq_refl).
Defined.

(* ================================================================= *)
(** ** More on the loader and the renderer entry point *)

Lemma Forall2_In_l {X Y : Type} (P : X -> Y -> Prop) (xs : list X)
  (ys : list Y) (x : X) :
  Forall2 P xs ys -> In x xs -> exists y, In y ys /\ P x y.
Proof.
  induction 1 as [|x0 y0 xs ys HP _ IH]; intros Hin; [contradiction|].
  destruct Hin as [<- | Hin].
  - exists y0. split; [now left | exact HP].
  - destruct (IH Hin) as [y [Hy HPy]]. exists y. split; [now right | exact HPy].
Qed.

Lemma array_map_ext_in {A B : Type} (f g : A -> Result B) (l : list A) :
  (forall x, In x l -> f x = g x) -> array_map f l = array_map g l.
Proof.
  induction l as [|x l IH]; intros H; simpl; [reflexivity|].
  rewrite (H x (or_introl eq_refl)), IH; [reflexivity|].
  intros y Hy. apply H. now right.
Qed.

Lemma find_skip_other (entries1 entries2 : Directory) (n name : string)
  (e : Entry) :
  name <> n ->
  find (fun x => (fst x =? name)%string) (entries1 ++ (n, e) :: entries2)
  = find (fun x => (fst x =? name)%string) (entries1 ++ entries2).
Proof.
  intros Hne. induction entries1 as [|[n1 e1] entries1 IH]; simpl.
  - destruct (String.eqb_spec n name) as [E|_]; [congruence | reflexivity].
  - destruct (n1 =? name)%string; [reflexivity | exact IH].
Qed.

(** Every summary of a listing carries the front matter of the file
    [slug.md]: title, author, date, description, tags and category as
    parsed, and the image unless it is falsy. *)
Theorem listing_summary_is_front_matter
  (matter : string -> Result (FrontMatter * string)) (fs : FileSystem)
  (out : list ArticleSummary) (a : ArticleSummary) :
  Markdown.getAllArticles matter fs = Ok out ->
  In a out ->
  exists contents data body,
    readFileSync fs (slug a ++ ".md") = Ok contents
    /\ matter contents = Ok (data, body)
    /\ title a = fm_title data
    /\ author a = fm_author data
    /\ date a = fm_date data
    /\ description a = fm_description data
    /\ tags a = fm_tags data
    /\ category a = fm_category data
    /\ image a = (if truthy (fm_image data) then fm_image data else Undefined).
Proof.
  intros H Hin. destruct fs as [entries|].
  - destruct (getAllArticles_origin matter entries out a H Hin)
      as [_ [c [d [b [Hr [Hm E]]]]]].
    exists c, d, b. rewrite E. simpl. repeat split; auto.
  - inversion H; subst. contradiction.
Qed.

Lemma listing_summary_is_front_matter_witness :
  exists contents data body,
    readFileSync Sample.two_files "june.md" = Ok contents
    /\ Sample.matter contents = Ok (data, body)
    /\ title Sample.june_summary = fm_title data.
Proof.
  destruct (listing_summary_is_front_matter Sample.matter Sample.two_files
              [Sample.june_summary; Sample.january_summary]
              Sample.june_summary eq_refl (or_introl eq_refl))
    as [c [d [b [Hr [Hm [Ht _]]]]]].
  now exists c, d, b.
Defined.

(** The loader never looks at a file whose name does not end in [.md]:
    with or without such an entry in the directory, [getAllArticles]
    gives the same result, be it a listing or an exception. *)
Theorem getAllArticles_ignores_other_files
  (matter : string -> Result (FrontMatter * string))
  (entries1 entries2 : Directory) (n : string) (e : Entry) :
  endsWith n ".md" = false ->
  Markdown.getAllArticles matter (Some (entries1 ++ (n, e) :: entries2))
  = Markdown.getAllArticles matter (Some (entries1 ++ entries2)).
Proof.
  intros Hn. unfold Markdown.getAllArticles. simpl.
  assert (Ef : filter (fun name => endsWith name ".md")
                 (map fst (entries1 ++ (n, e) :: entries2))
               = filter (fun name => endsWith name ".md")
                   (map fst (entries1 ++ entries2))).
  { rewrite !map_app, !filter_app. simpl. now rewrite Hn. }
  rewrite Ef. f_equal.
  apply array_map_ext_in. intros name Hname.
  apply filter_In in Hname. destruct Hname as [_ Hmd].
  unfold Markdown.load_summary, readFileSync.
  rewrite find_skip_other; [reflexivity|]. intros ->. congruence.
Qed.

Lemma getAllArticles_ignores_other_files_witness :
  Markdown.getAllArticles Sample.matter Sample.two_files
  = Markdown.getAllArticles Sample.matter
      (Some [ ("january.md", File Sample.january_md);
              ("june.md", File Sample.june_md) ]).
Proof.
  apply (getAllArticles_ignores_other_files Sample.matter
           [("january.md", File Sample.january_md)]
           [("june.md", File Sample.june_md)]
           "notes.txt" (File "not an article")).
  reflexivity.
Defined.

(** [getAllArticles] returns a listing exactly when every [.md] file of
    the directory is read and parsed. *)
Theorem getAllArticles_returns_iff
  (matter : string -> Result (FrontMatter * string)) (entries : Directory) :
  (exists out, Markdown.getAllArticles matter (Some entries) = Ok out)
  <-> (forall name, In name (map fst entries) -> endsWith name ".md" = true ->
         exists contents data body,
           readFileSync (Some entries) name = Ok contents
           /\ matter contents = Ok (data, body)).
Proof.
  split.
  - intros [out H] name Hname Hmd.
    apply getAllArticles_Ok in H. destruct H as [loaded [HF _]].
    destruct (Forall2_In_l _ _ _ name HF) as [a [_ Ha]].
    { apply filter_In. now split. }
    apply load_summary_Ok in Ha. destruct Ha as [c [d [b [Hr [Hm _]]]]].
    now exists c, d, b.
  - intros Hall. apply getAllArticles_returns.
    intros name Hname Hmd.
    destruct (Hall name Hname Hmd) as [c [d [b [Hr Hm]]]].
    unfold Markdown.load_summary. rewrite Hr. simpl. rewrite Hm. simpl.
    now eexists.
Qed.

Lemma getAllArticles_returns_iff_witness :
  exists out, Markdown.getAllArticles Sample.matter Sample.two_files = Ok out.
Proof.
  apply (proj2 (getAllArticles_returns_iff Sample.matter
    [ ("january.md", File Sample.january_md);
      ("notes.txt", File "not an article");
      ("june.md", File Sample.june_md) ])).
  intros name [<- | [<- | [<- | []]]] Hmd; try discriminate Hmd;
    do 3 eexists; split; reflexivity.
Defined.

(** No record the two functions return has a falsy image other than
    [undefined]: the image is either absent or truthy. *)
Theorem returned_image_is_undefined_or_truthy
  (matter : string -> Result (FrontMatter * string))
  (process : string -> Result string)
  (outside : nat -> list string -> Result string) (fs : FileSystem) :
  (forall out a, Markdown.getAllArticles matter fs = Ok out -> In a out ->
     image a = Undefined \/ truthy (image a) = true)
  /\ (forall slug art,
        Markdown.getArticleBySlug matter process outside fs slug
        = Ok (Some art) ->
        image (meta art) = Undefined \/ truthy (image (meta art)) = true).
Proof.
  assert (Hs : forall s d, image (Markdown.summary_of s d) = Undefined
                           \/ truthy (image (Markdown.summary_of s d)) = true).
  { intros s d. simpl. unfold or_else.
    destruct (truthy (fm_image d)) eqn:E; [now right | now left]. }
  split.
  - intros out a H Hin. destruct fs as [entries|].
    + destruct (getAllArticles_origin matter entries out a H Hin)
        as [_ [c [d [b [_ [_ ->]]]]]]. apply Hs.
    + inversion H; subst. contradiction.
  - intros slug art H.
    destruct (getArticleBySlug_cases matter process outside fs slug)
      as [[e [_ H']] | [art' [Hr H']]]; rewrite H' in H; [discriminate|].
    inversion H; subst art'. apply render_article_Ok in Hr.
    destruct Hr as [c [d [b [html [_ [_ [_ ->]]]]]]]. apply Hs.
Qed.

Lemma returned_image_is_undefined_or_truthy_witness :
  image Sample.january_summary = Undefined
  \/ truthy (image Sample.january_summary) = true.
Proof.
  apply (proj1 (returned_image_is_undefined_or_truthy Sample.matter
                  Sample.process SamplePaths.nothing_outside Sample.two_files)
           [Sample.june_summary; Sample.january_summary]
           Sample.january_summary eq_refl).
  simpl. auto.
Defined.

(** [getArticleBySlug] returns an article exactly when the path of
    [slug.md] is read, its front matter parsed and its body rendered; the
    article then has the slug that was asked for, that front matter and
    the rendered body as content. *)
Theorem getArticleBySlug_returns_article_iff
  (matter : string -> Result (FrontMatter * string))
  (process : string -> Result string)
  (outside : nat -> list string -> Result string) (fs : FileSystem)
  (slug : string) (art : Article) :
  Markdown.getArticleBySlug matter process outside fs slug = Ok (Some art)
  <-> exists contents data body html,
        readJoined outside fs (slug ++ ".md") = Ok contents
        /\ matter contents = Ok (data, body)
        /\ process body = Ok html
        /\ art = {| meta := Markdown.summary_of slug data; content := html |}.
Proof.
  split.
  - intros H.
    destruct (getArticleBySlug_cases matter process outside fs slug)
      as [[e [_ H']] | [art' [Hr H']]]; rewrite H' in H; [discriminate|].
    inversion H; subst art'. now apply render_article_Ok in Hr.
  - intros [c [d [b [html [Hr [Hm [Hp ->]]]]]]].
    unfold Markdown.getArticleBySlug, Markdown.render_article.
    rewrite Hr. simpl. rewrite Hm. simpl. now rewrite Hp.
Qed.

Lemma getArticleBySlug_returns_article_iff_witness :
  Markdown.getArticleBySlug Sample.matter Sample.process
    SamplePaths.nothing_outside Sample.three_files "june"
  = Ok (Some {| meta := Sample.june_summary; content := "<p># June</p>" |}).
Proof.
  apply (proj2 (getArticleBySlug_returns_article_iff Sample.matter
                  Sample.process SamplePaths.nothing_outside
                  Sample.three_files "june"
                  {| meta := Sample.june_summary; content := "<p># June</p>" |})).
  exists Sample.june_md, Sample.june, "# June", "<p># June</p>".
  repeat split; reflexivity.
Defined.

(* ================================================================= *)
(** ** Listing and article pages agree *)

(** Every statically generated article route finds its file: for a slug
    of [generateStaticParams], [slug.md] is read and parsed; the page
    renders the article, with the very metadata the listing shows, when
    the pipeline renders the body, and is the not-found page when the
    pipeline fails. *)
Theorem static_article_routes_resolve
  (matter : string -> Result (FrontMatter * string))
  (process : string -> Result string)
  (outside : nat -> list string -> Result string) (fs : FileSystem)
  (params : list string) (p : string) :
  ArticlePage.generateStaticParams matter fs = Ok params ->
  In p params ->
  exists listing a contents data body,
    Markdown.getAllArticles matter fs = Ok listing
    /\ In a listing /\ slug a = p
    /\ readFileSync fs (p ++ ".md") = Ok contents
    /\ matter contents = Ok (data, body)
    /\ (forall html, process body = Ok html ->
          ArticlePage.ArticlePage matter process outside fs p
          = Ok (ArticlePage.Rendered {| meta := a; content := html |} p))
    /\ (forall e, process body = Throw e ->
          ArticlePage.ArticlePage matter process outside fs p
          = Ok ArticlePage.NotFound).
Proof.
  unfold ArticlePage.generateStaticParams. intros H Hp.
  apply bind_Ok in H. destruct H as [listing [Hl H]].
  inversion H; subst params. apply in_map_iff in Hp.
  destruct Hp as [a [Hslug Ha]].
  destruct fs as [entries|]; [|inversion Hl; subst; contradiction].
  destruct (getAllArticles_origin matter entries listing a Hl Ha)
    as [Hname [c [d [b [Hr [Hm Ea]]]]]].
  rewrite Hslug in Hname, Hr, Ea.
  pose proof (readJoined_entry outside (Some entries) (p ++ ".md") Hname) as Ej.
  exists listing, a, c, d, b. repeat split; auto.
  - intros html Hh. unfold ArticlePage.ArticlePage,
      Markdown.getArticleBySlug, Markdown.render_article.
    rewrite Ej, Hr. simpl. rewrite Hm. simpl. rewrite Hh. simpl. now rewrite Ea.
  - intros e He. unfold ArticlePage.ArticlePage,
      Markdown.getArticleBySlug, Markdown.render_article.
    rewrite Ej, Hr. simpl. rewrite Hm. simpl. now rewrite He.
Qed.

Lemma static_article_routes_resolve_witness :
  ArticlePage.generateStaticParams Sample.matter Sample.three_files
    = Ok ["june"; "rails"; "january"]
  /\ ArticlePage.ArticlePage Sample.matter Sample.process
       SamplePaths.nothing_outside Sample.three_files "january"
     = Ok ArticlePage.NotFound.
Proof.
  split; [reflexivity|].
  destruct (static_article_routes_resolve Sample.matter Sample.process
              SamplePaths.nothing_outside Sample.three_files ["june"; "rails"; "january"] "january"
              eq_refl (or_intror (or_intror (or_introl eq_refl))))
    as [listing [a [c [d [b [_ [_ [_ [Hr [Hm [_ Hfail]]]]]]]]]]].
  inversion Hr; subst c. inversion Hm; subst d b.
  apply (Hfail RenderError). reflexivity.
Defined.

(** For a slug without separator, an article the renderer returns is in
    the listing, with the same metadata, whenever the listing is
    returned. *)
Theorem rendered_article_is_listed
  (matter : string -> Result (FrontMatter * string))
  (process : string -> Result string)
  (outside : nat -> list string -> Result string) (fs : FileSystem)
  (slug : string) (art : Article) (out : list ArticleSummary) :
  includes slug "/" = false ->
  Markdown.getArticleBySlug matter process outside fs slug = Ok (Some art) ->
  Markdown.getAllArticles matter fs = Ok out ->
  In (meta art) out.
Proof.
  intros Hplain Hart Hout.
  destruct (getArticleBySlug_cases matter process outside fs slug)
    as [[e [_ H']] | [art' [Hr H']]]; rewrite H' in Hart; [discriminate|].
  inversion Hart; subst art'. apply render_article_Ok in Hr.
  destruct Hr as [c [d [b [html [Hr [Hm [_ ->]]]]]]]. simpl.
  rewrite (readJoined_plain outside fs slug Hplain) in Hr.
  destruct fs as [entries|]; [|discriminate].
  apply getAllArticles_Ok in Hout. destruct Hout as [loaded [HF ->]].
  apply (Permutation_in _ (Permutation_sym (sort_perm Markdown.by_date loaded))).
  assert (Hname : In (slug ++ ".md")%string
                    (filter (fun name => endsWith name ".md") (map fst entries))).
  { apply filter_In. split.
    - unfold readFileSync in Hr.
      destruct (find (fun x => (fst x =? slug ++ ".md")%string) entries)
        as [[n x]|] eqn:E; [|discriminate].
      apply find_some in E. destruct E as [Hin E]. simpl in E.
      apply String.eqb_eq in E. subst n.
      apply in_map_iff. now exists ((slug ++ ".md")%string, x).
    - apply endsWith_iff. now exists slug. }
  destruct (Forall2_In_l _ _ _ _ HF Hname) as [a [Ha Hl]].
  unfold Markdown.load_summary in Hl. rewrite Hr in Hl. simpl in Hl.
  rewrite Hm in Hl. simpl in Hl. rewrite replace_md_suffix_append in Hl.
  inversion Hl; subst a. exact Ha.
Qed.

Lemma rendered_article_is_listed_witness :
  In Sample.rails [Sample.june_summary; Sample.rails; Sample.january_summary].
Proof.
  apply (rendered_article_is_listed Sample.matter Sample.process
           SamplePaths.nothing_outside Sample.three_files "rails"
           {| meta := Sample.rails; content := "<p># Rails</p>" |}
           [Sample.june_summary; Sample.rails; Sample.january_summary]);
    reflexivity.
Defined.

(* ================================================================= *)
(** ** More on [Map], [Set] and the sitemap *)

Section MapSetFacts.

Context {V : Type}.

Lemma Map_set_keys_Set_add (k : string) (v : V) (m : list (string * V)) :
  map fst (Map_set k v m) = Set_add k (map fst m).
Proof.
  unfold Set_add. induction m as [|[k0 v0] m IH]; simpl; [reflexivity|].
  destruct (String.eqb_spec k k0) as [->|Hne]; simpl; [reflexivity|].
  rewrite IH. destruct (existsb (String.eqb k) (map fst m)); reflexivity.
Qed.

(** The keys of a [Map] built from entries are the [Set] of the keys. *)
Lemma Map_new_keys_Set_new (entries : list (string * V)) :
  map fst (Map_new entries) = Set_new (map fst entries).
Proof.
  unfold Map_new, Set_new.
  assert (H : forall m,
    map fst (fold_left (fun m kv => Map_set (fst kv) (snd kv) m) entries m)
    = fold_left (fun s x => Set_add x s) (map fst entries) (map fst m)).
  { induction entries as [|[k v] entries IH]; intros m; simpl; [reflexivity|].
    rewrite IH. now rewrite Map_set_keys_Set_add. }
  apply (H []).
Qed.

Lemma Map_set_value (k : string) (v v' : V) (m : list (string * V)) :
  NoDup (map fst m) -> In (k, v') (Map_set k v m) -> v' = v.
Proof.
  induction m as [|[k0 v0] m IH]; simpl; intros HN Hin.
  - destruct Hin as [E | []]. now inversion E.
  - inversion HN as [|? ? Hk0 HN']; subst.
    destruct (String.eqb_spec k k0) as [->|Hne]; simpl in Hin.
    + destruct Hin as [E | Hin]; [now inversion E|].
      exfalso. apply Hk0. apply in_map_iff. now exists (k0, v').
    + destruct Hin as [E | Hin]; [inversion E; congruence|].
      now apply IH.
Qed.

(** The value a [Map] holds for a key is the one of the last entry with
    that key. *)
Lemma Map_new_last (entries : list (string * V)) (k : string) (v : V) :
  In (k, v) (Map_new entries) ->
  exists before after,
    entries = before ++ (k, v) :: after /\ ~ In k (map fst after).
Proof.
  unfold Map_new.
  assert (H : forall m,
    NoDup (map fst m) ->
    In (k, v) (fold_left (fun m kv => Map_set (fst kv) (snd kv) m) entries m) ->
    (exists before after,
       entries = before ++ (k, v) :: after /\ ~ In k (map fst after))
    \/ (In (k, v) m /\ ~ In k (map fst entries))).
  { induction entries as [|[k0 v0] entries IH]; intros m HN Hin; simpl in *.
    - right. split; [exact Hin | tauto].
    - destruct (IH (Map_set k0 v0 m) (Map_set_NoDup k0 v0 m HN) Hin)
        as [[before [after [E Hafter]]] | [Hm Hk]].
      + left. exists ((k0, v0) :: before), after. split; [now rewrite E | exact Hafter].
      + destruct (String.eqb_spec k k0) as [->|Hne].
        * left. exists [], entries. split; [|exact Hk].
          simpl. now rewrite (Map_set_value k0 v0 v m HN Hm).
        * right. apply Map_set_entries in Hm.
          destruct Hm as [E | Hm]; [inversion E; congruence|].
          split; [exact Hm|]. intros [E | Hk']; [congruence | contradiction]. }
  intros Hin. destruct (H [] (NoDup_nil _) Hin) as [Hex | [[] _]]. exact Hex.
Qed.

End MapSetFacts.

(** The order [<] on strings: not being below is transitive. *)
Lemma ascii_compare_N (a b : ascii) :
  Ascii.compare a b = N.compare (N_of_ascii a) (N_of_ascii b).
Proof. reflexivity. Qed.

Lemma date_ge_trans (a b c : ArticleSummary) :
  Spec.date_ge a b -> Spec.date_ge b c -> Spec.date_ge a c.
Proof.
  unfold Spec.date_ge, String.ltb.
  generalize (date a) (date b) (date c). clear a b c.
  intros x. induction x as [|cx x IH]; intros [|cy y] [|cz z]; simpl;
    try congruence.
  rewrite !ascii_compare_N.
  destruct (N.compare_spec (N_of_ascii cx) (N_of_ascii cy)) as [E1|L1|G1];
    destruct (N.compare_spec (N_of_ascii cy) (N_of_ascii cz)) as [E2|L2|G2];
    destruct (N.compare_spec (N_of_ascii cx) (N_of_ascii cz)) as [E3|L3|G3];
    try congruence; try lia; try (intros; exfalso; lia).
  apply IH.
Qed.

Lemma Set_new_map (f : string -> string) (l : list string) :
  (forall x y, f x = f y -> x = y) ->
  Set_new (map f l) = map f (Set_new l).
Proof.
  intros Hinj. unfold Set_new.
  assert (Hadd : forall x s, Set_add (f x) (map f s) = map f (Set_add x s)).
  { intros x s. unfold Set_add.
    assert (E : existsb (String.eqb (f x)) (map f s) = existsb (String.eqb x) s).
    { induction s as [|y s IH]; simpl; [reflexivity|]. rewrite IH. f_equal.
      destruct (String.eqb_spec x y) as [->|Hne].
      - apply String.eqb_refl.
      - apply String.eqb_neq. intros E. now apply Hinj in E. }
    rewrite E. destruct (existsb (String.eqb x) s); [reflexivity|].
    now rewrite map_app. }
  assert (H : forall s,
    fold_left (fun s x => Set_add x s) (map f l) (map f s)
    = map f (fold_left (fun s x => Set_add x s) l s)).
  { induction l as [|x l IH]; intros s; simpl; [reflexivity|].
    now rewrite Hadd, IH. }
  apply (H []).
Qed.

Lemma unique_pages_url_keys (pages : list Sitemap.SitemapEntry) :
  map Sitemap.url
    (Map_values (Map_new (map (fun page => (Sitemap.url page, page)) pages)))
  = Set_new (map Sitemap.url pages).
Proof.
  unfold Map_values.
  destruct (Map_new_spec (map (fun page => (Sitemap.url page, page)) pages))
    as [_ [_ H3]].
  assert (Ek : map fst (map (fun page => (Sitemap.url page, page)) pages)
               = map Sitemap.url pages).
  { rewrite map_map. now apply map_ext. }
  rewrite <- Ek, <- Map_new_keys_Set_new.
  rewrite map_map. apply map_ext_in. intros [k p] Hkp.
  apply H3, in_map_iff in Hkp. destruct Hkp as [p' [E _]].
  inversion E; subst. reflexivity.
Qed.

(** The sitemap lists the home page, then the statically generated
    article routes in the order of the listing, then the statically
    generated author routes: its URLs are those of [generateStaticParams]
    of the two pages, prefixed, and no other. *)
Theorem sitemap_lists_static_routes
  (matter : string -> Result (FrontMatter * string))
  (toISOString : string -> Result string) (currentDate : string)
  (fs : FileSystem) (out : list Sitemap.SitemapEntry) :
  Sitemap.sitemap matter toISOString currentDate fs = Ok out ->
  exists slugs names,
    ArticlePage.generateStaticParams matter fs = Ok slugs
    /\ AuthorPage.generateStaticParams matter fs = Ok names
    /\ map Sitemap.url out
       = Sitemap.baseUrl
         :: map (fun s => Sitemap.baseUrl ++ "/article/" ++ s)%string slugs
         ++ map (fun n => Sitemap.baseUrl ++ "/author/" ++ n)%string names.
Proof.
  intros H. apply sitemap_Ok in H.
  destruct H as [articles [articlePages [authorPages [Ha [Hp [Hq ->]]]]]].
  unfold ArticlePage.generateStaticParams, AuthorPage.generateStaticParams.
  rewrite Ha. simpl. eexists. eexists. split; [reflexivity|].
  split; [reflexivity|]. f_equal. rewrite map_app. f_equal.
  - rewrite (article_pages_urls toISOString _ _ Hp). now rewrite map_map.
  - rewrite unique_pages_url_keys, (author_pages_urls toISOString _ _ Hq).
    rewrite <- Set_new_map.
    + now rewrite map_map.
    + intros x y E.
      now apply (append_inj_l Sitemap.baseUrl), (append_inj_l "/author/") in E.
Qed.

Lemma sitemap_lists_static_routes_witness :
  exists out,
    Sitemap.sitemap Sample.matter Sample.toISOString "2026-01-01T00:00:00.000Z"
      Sample.three_files = Ok out
    /\ map Sitemap.url out
       = [ "https://blog.zendfi.tech";
           "https://blog.zendfi.tech/article/june";
           "https://blog.zendfi.tech/article/rails";
           "https://blog.zendfi.tech/article/january";
           "https://blog.zendfi.tech/author/the-zendfi-team";
           "https://blog.zendfi.tech/author/blessed-tosin-oyinbo" ].
Proof.
  eexists. split; [reflexivity|].
  destruct (sitemap_lists_static_routes Sample.matter Sample.toISOString
              "2026-01-01T00:00:00.000Z" Sample.three_files _ eq_refl)
    as [slugs [names [Hs [Hn E]]]].
  inversion Hs; subst slugs. inversion Hn; subst names. exact E.
Defined.

(** The sitemap is generated exactly when every listed article has a
    date [Date] accepts: one article with an invalid date makes the
    whole sitemap fail. *)
Theorem sitemap_returns_iff_dates_valid
  (matter : string -> Result (FrontMatter * string))
  (toISOString : string -> Result string) (currentDate : string)
  (fs : FileSystem) (listing : list ArticleSummary) :
  Markdown.getAllArticles matter fs = Ok listing ->
  (exists out, Sitemap.sitemap matter toISOString currentDate fs = Ok out)
  <-> (forall a, In a listing -> exists iso, toISOString (date a) = Ok iso).
Proof.
  intros Hl. split.
  - intros [out H] a Ha. apply sitemap_Ok in H.
    destruct H as [articles [articlePages [authorPages [Ha' [Hp _]]]]].
    rewrite Hl in Ha'. inversion Ha'; subst articles.
    apply array_map_Ok in Hp.
    destruct (Forall2_In_l _ _ _ a Hp Ha) as [page [_ Hpage]].
    unfold Sitemap.article_page in Hpage. apply bind_Ok in Hpage.
    destruct Hpage as [iso [Hiso _]]. now exists iso.
  - intros Hall. unfold Sitemap.sitemap. rewrite Hl. simpl.
    destruct (array_map_total (Sitemap.article_page toISOString) listing)
      as [articlePages ->].
    { intros a Ha. destruct (Hall a Ha) as [iso Hiso].
      unfold Sitemap.article_page. rewrite Hiso. simpl. now eexists. }
    destruct (array_map_total (Sitemap.author_page toISOString) listing)
      as [authorPages ->].
    { intros a Ha. destruct (Hall a Ha) as [iso Hiso].
      unfold Sitemap.author_page. rewrite Hiso. simpl. now eexists. }
    simpl. now eexists.
Qed.

Lemma sitemap_returns_iff_dates_valid_witness :
  exists out,
    Sitemap.sitemap Sample.matter Sample.toISOString "2026-01-01T00:00:00.000Z"
      Sample.two_files = Ok out.
Proof.
  apply (proj2 (sitemap_returns_iff_dates_valid Sample.matter
                  Sample.toISOString "2026-01-01T00:00:00.000Z"
                  Sample.two_files
                  [Sample.june_summary; Sample.january_summary] eq_refl)).
  intros a [<- | [<- | []]]; eexists; reflexivity.
Defined.

Lemma ltb_irrefl (s : string) : (s <? s)%string = false.
Proof.
  unfold String.ltb. induction s as [|c s IH]; simpl; [reflexivity|].
  rewrite ascii_compare_N, N.compare_refl. exact IH.
Qed.

Lemma StronglySorted_before {A : Type} (R : A -> A -> Prop)
  (before after : list A) (a b : A) :
  StronglySorted R (before ++ a :: after) -> In b before -> R b a.
Proof.
  induction before as [|x before IH]; intros HS Hin; [contradiction|].
  simpl in HS. apply StronglySorted_inv in HS. destruct HS as [HS HF].
  destruct Hin as [-> | Hin]; [|now apply IH].
  rewrite Forall_forall in HF. apply HF, in_or_app. right. now left.
Qed.

(** A returned listing is sorted, in the strong sense: every article is
    dated no earlier than all that follow it. *)
Lemma getAllArticles_StronglySorted
  (matter : string -> Result (FrontMatter * string)) (fs : FileSystem)
  (out : list ArticleSummary) :
  Markdown.getAllArticles matter fs = Ok out ->
  StronglySorted Spec.date_ge out.
Proof.
  intros H. apply Sorted_StronglySorted.
  - intros a b c. apply date_ge_trans.
  - destruct fs as [entries|].
    + apply getAllArticles_Ok in H. destruct H as [loaded [_ ->]].
      apply sort_sorted; [apply by_date_neg | apply by_date_pos].
    + inversion H. constructor.
Qed.

(** The sitemap entry of an author carries the date of the last article
    of that author in the listing, which is the author's oldest: every
    article with the same author URL is dated no earlier. *)
Theorem sitemap_author_entry_dated_by_oldest_article
  (matter : string -> Result (FrontMatter * string))
  (toISOString : string -> Result string) (currentDate : string)
  (fs : FileSystem) (out : list Sitemap.SitemapEntry)
  (e : Sitemap.SitemapEntry) (x : string) :
  Sitemap.sitemap matter toISOString currentDate fs = Ok out ->
  In e out ->
  Sitemap.url e = Sitemap.author_url x ->
  exists listing before a after,
    Markdown.getAllArticles matter fs = Ok listing
    /\ listing = before ++ a :: after
    /\ Sitemap.author_url (author a) = Sitemap.url e
    /\ (forall b, In b after -> Sitemap.author_url (author b) <> Sitemap.url e)
    /\ toISOString (date a) = Ok (Sitemap.lastModified e)
    /\ (forall b, In b listing ->
          Sitemap.author_url (author b) = Sitemap.url e ->
          (date b <? date a)%string = false).
Proof.
  intros H Hin Hurl. apply sitemap_Ok in H.
  destruct H as [listing [articlePages [authorPages [Hl [Hp [Hq ->]]]]]].
  pose proof (article_pages_urls toISOString _ _ Hp) as Eart.
  simpl in Hin. destruct Hin as [<- | Hin].
  { simpl in Hurl. symmetry in Hurl. now apply author_url_not_base in Hurl. }
  apply in_app_or in Hin. destruct Hin as [Hin | Hin].
  { apply (in_map Sitemap.url) in Hin. rewrite Eart in Hin.
    apply in_map_iff in Hin. destruct Hin as [a [E _]].
    rewrite Hurl in E. now apply article_url_not_author_url in E. }
  unfold Map_values in Hin. apply in_map_iff in Hin.
  destruct Hin as [[k e'] [E Hin]]. simpl in E. subst e'.
  apply Map_new_last in Hin. destruct Hin as [bef [aft [Es Haft]]].
  apply map_eq_app in Es. destruct Es as [P1 [P2' [EP [_ Es]]]].
  apply map_eq_cons in Es. destruct Es as [p [P2 [EP2 [Ep Eaft]]]].
  inversion Ep; subst p k. subst P2' authorPages. clear Ep.
  apply array_map_Ok in Hq. apply Forall2_app_inv_r in Hq.
  destruct Hq as [L1 [L2' [_ [HF2 EL]]]].
  inversion HF2 as [|a e0 L2 P2'' Ha HF2' E1 E2]; subst.
  unfold Sitemap.author_page in Ha. apply bind_Ok in Ha.
  destruct Ha as [iso [Hiso Ha]]. inversion Ha; subst e. simpl in *.
  assert (Hafter : forall b, In b L2 ->
            Sitemap.author_url (author b) <> Sitemap.author_url (author a)).
  { intros b Hb Eb.
    destruct (Forall2_In_l _ _ _ b HF2' Hb) as [pb [Hpb Hb']].
    unfold Sitemap.author_page in Hb'. apply bind_Ok in Hb'.
    destruct Hb' as [iso' [_ Hb']]. inversion Hb'; subst pb.
    apply Haft. rewrite map_map. apply in_map_iff.
    eexists. split; [|exact Hpb]. simpl. exact Eb. }
  exists (L1 ++ a :: L2), L1, a, L2.
  repeat split; auto.
  intros b Hb Eb. apply in_app_or in Hb. destruct Hb as [Hb | [<- | Hb]].
  - pose proof (getAllArticles_StronglySorted matter fs _ Hl) as HS.
    apply (StronglySorted_before Spec.date_ge L1 L2 a b HS Hb).
  - apply ltb_irrefl.
  - exfalso. now apply (Hafter b Hb).
Qed.

Lemma sitemap_author_entry_dated_by_oldest_article_witness :
  exists out e,
    Sitemap.sitemap Sample.matter Sample.toISOString "2026-01-01T00:00:00.000Z"
      Sample.three_files = Ok out
    /\ In e out
    /\ Sitemap.url e = "https://blog.zendfi.tech/author/the-zendfi-team"
    /\ Sitemap.lastModified e = "2025-03-01T00:00:00.000Z".
Proof.
  eexists. eexists. split; [reflexivity|].
  split; [right; right; right; right; left; reflexivity|].
  split; [reflexivity|].
  destruct (sitemap_author_entry_dated_by_oldest_article Sample.matter
              Sample.toISOString "2026-01-01T00:00:00.000Z" Sample.three_files
              _ _ "The ZendFi Team" eq_refl
              (or_intror (or_intror (or_intror (or_intror (or_introl eq_refl)))))
              eq_refl)
    as [listing [before [a [after [Hl [E [Hu [Hafter [Hiso _]]]]]]]]].
  reflexivity.
Defined.

(* ================================================================= *)
(** ** The author page: [slugify] *)

Section SlugifyFacts.

Import AuthorPage.

(** The units of a slug. *)
Let slug_unit (c : ascii) : Prop := is_lower_alnum c = true \/ c = "-"%char.

Let no_double_hyphen (s : string) : Prop :=
  forall pre post, s <> (pre ++ "--" ++ post)%string.

Let no_leading_hyphen (s : string) : Prop :=
  forall rest, s <> String "-" rest.

Let no_trailing_hyphen (s : string) : Prop :=
  forall pre, s <> (pre ++ "-")%string.

Lemma lower_alnum_is_lower (c : ascii) :
  is_lower_alnum c = true -> lower_unit c = c.
Proof.
  destruct c as [[] [] [] [] [] [] [] []]; intros H;
    try reflexivity; discriminate H.
Qed.

Lemma hyphen_not_alnum : is_lower_alnum "-" = false.
Proof. reflexivity. Qed.

Lemma replace_non_alnum_units (s : string) :
  Forall slug_unit (list_ascii_of_string (replace_non_alnum s)).
Proof.
  induction s as [|c s IH]; simpl; constructor; [|exact IH].
  unfold slug_unit. destruct (is_lower_alnum c) eqn:E; auto.
Qed.

Lemma collapse_units (P : ascii -> Prop) (b : bool) (s : string) :
  Forall P (list_ascii_of_string s) ->
  Forall P (list_ascii_of_string (collapse_hyphens_from b s)).
Proof.
  revert b; induction s as [|c s IH]; intros b H; simpl; [constructor|].
  simpl in H. inversion H as [|? ? Hc Hs]; subst.
  destruct (Ascii.eqb_spec c "-") as [->|_].
  - destruct b; [now apply IH | constructor; [exact Hc | now apply IH]].
  - constructor; [exact Hc | now apply IH].
Qed.

Lemma drop_leading_cases (s : string) :
  (drop_leading_hyphen s = s /\ no_leading_hyphen s)
  \/ s = String "-" (drop_leading_hyphen s).
Proof.
  destruct s as [|c s]; simpl.
  - left. split; [reflexivity | intros rest; discriminate].
  - destruct (Ascii.eqb_spec c "-") as [->|Hne].
    + now right.
    + left. split; [reflexivity | intros rest E; inversion E; contradiction].
Qed.

Lemma drop_trailing_cases (s : string) :
  (drop_trailing_hyphen s = s /\ no_trailing_hyphen s)
  \/ s = (drop_trailing_hyphen s ++ "-")%string.
Proof.
  induction s as [|c s IH].
  - left. split; [reflexivity|]. intros [|a pre]; discriminate.
  - destruct s as [|c' s'].
    + simpl. destruct (Ascii.eqb_spec c "-") as [->|Hne].
      * now right.
      * left. split; [reflexivity|].
        intros [|a [|a' pre]] E; inversion E; congruence.
    + change (drop_trailing_hyphen (String c (String c' s')))
        with (String c (drop_trailing_hyphen (String c' s'))).
      destruct IH as [[E Hno] | E].
      * left. rewrite E. split; [reflexivity|].
        intros [|a pre] E'; [discriminate|].
        simpl in E'. inversion E'. now apply (Hno pre).
      * right. cbn [append]. f_equal. exact E.
Qed.

Lemma collapse_shape (s : string) (b : bool) :
  no_double_hyphen (collapse_hyphens_from b s)
  /\ (b = true -> no_leading_hyphen (collapse_hyphens_from b s)).
Proof.
  revert b; induction s as [|c s IH]; intros b; simpl.
  - split.
    + intros [|a pre] post; discriminate.
    + intros _ rest; discriminate.
  - destruct (Ascii.eqb_spec c "-") as [->|Hne].
    + destruct b.
      * apply IH.
      * destruct (IH true) as [Hd Hl]. split; [|discriminate].
        intros [|a pre] post E; simpl in E; inversion E.
        -- now apply (Hl eq_refl (String.append "" post)).
        -- now apply (Hd pre post).
    + destruct (IH false) as [Hd _]. split.
      * intros [|a pre] post E; simpl in E; inversion E; [congruence|].
        now apply (Hd pre post).
      * intros _ rest E. inversion E. contradiction.
Qed.

(** The shape of a slug: only [a-z], [0-9] and hyphens, no two hyphens
    in a row, none at either end. *)
Lemma slugify_shape (str : string) :
  Forall slug_unit (list_ascii_of_string (slugify str))
  /\ no_double_hyphen (slugify str)
  /\ no_leading_hyphen (slugify str)
  /\ no_trailing_hyphen (slugify str).
Proof.
  unfold slugify, collapse_hyphens.
  set (x := replace_non_alnum (toLowerCase str)).
  pose proof (collapse_units slug_unit false x (replace_non_alnum_units _)) as Hu.
  destruct (collapse_shape x false) as [Hd _].
  set (y := collapse_hyphens_from false x) in *.
  assert (Hy : Forall slug_unit (list_ascii_of_string (drop_leading_hyphen y))
               /\ no_double_hyphen (drop_leading_hyphen y)
               /\ no_leading_hyphen (drop_leading_hyphen y)).
  { destruct (drop_leading_cases y) as [[E Hl] | E].
    - rewrite E. auto.
    - split; [|split].
      + rewrite E in Hu. simpl in Hu. now inversion Hu.
      + intros pre post E'. apply (Hd (String "-" pre) post).
        rewrite E, E'. reflexivity.
      + intros rest E'. apply (Hd "" rest). rewrite E, E'. reflexivity. }
  destruct Hy as [Hu1 [Hd1 Hl1]].
  set (z := drop_leading_hyphen y) in *.
  destruct (drop_trailing_cases z) as [[E Ht] | E].
  - rewrite E. auto.
  - split; [|split; [|split]].
    + rewrite E in Hu1.
      assert (Happ : forall a b,
                Forall slug_unit (list_ascii_of_string (a ++ b)) ->
                Forall slug_unit (list_ascii_of_string a)).
      { induction a as [|c a IHa]; intros b0 H; simpl in *; [constructor|].
        inversion H; subst. constructor; [assumption | now apply (IHa b0)]. }
      now apply (Happ _ "-").
    + intros pre post E'. apply (Hd1 pre (post ++ "-")%string).
      rewrite E, E'. now rewrite !append_assoc.
    + intros rest E'. apply (Hl1 (rest ++ "-")%string).
      rewrite E, E'. reflexivity.
    + intros pre E'. apply (Hd1 pre "").
      rewrite E, E'. now rewrite append_assoc.
Qed.

Lemma units_lower (s : string) :
  Forall slug_unit (list_ascii_of_string s) -> toLowerCase s = s.
Proof.
  induction s as [|c s IH]; simpl; intros H; [reflexivity|].
  inversion H as [|? ? Hc Hs]; subst. rewrite (IH Hs). f_equal.
  destruct Hc as [Hc | ->]; [now apply lower_alnum_is_lower | reflexivity].
Qed.

Lemma units_replace (s : string) :
  Forall slug_unit (list_ascii_of_string s) -> replace_non_alnum s = s.
Proof.
  induction s as [|c s IH]; simpl; intros H; [reflexivity|].
  inversion H as [|? ? Hc Hs]; subst. rewrite (IH Hs). f_equal.
  destruct Hc as [Hc | ->]; [now rewrite Hc | reflexivity].
Qed.

Lemma collapse_fixed (s : string) (b : bool) :
  no_double_hyphen s -> (b = true -> no_leading_hyphen s) ->
  collapse_hyphens_from b s = s.
Proof.
  revert b; induction s as [|c s IH]; intros b Hd Hl; simpl; [reflexivity|].
  assert (Hd' : no_double_hyphen s).
  { intros pre post E. apply (Hd (String c pre) post). simpl. now rewrite E. }
  destruct (Ascii.eqb_spec c "-") as [->|Hne].
  - destruct b.
    + exfalso. now apply (Hl eq_refl s).
    + f_equal. apply IH; [exact Hd'|].
      intros _ rest E. apply (Hd "" rest). simpl. now rewrite E.
  - f_equal. apply IH; [exact Hd' | discriminate].
Qed.

Lemma drop_leading_fixed (s : string) :
  no_leading_hyphen s -> drop_leading_hyphen s = s.
Proof.
  intros H. destruct (drop_leading_cases s) as [[E _] | E]; [exact E|].
  exfalso. now apply (H (drop_leading_hyphen s)).
Qed.

Lemma drop_trailing_fixed (s : string) :
  no_trailing_hyphen s -> drop_trailing_hyphen s = s.
Proof.
  intros H. destruct (drop_trailing_cases s) as [[E _] | E]; [exact E|].
  exfalso. now apply (H (drop_trailing_hyphen s)).
Qed.

Lemma slugify_fixed (s : string) :
  Forall slug_unit (list_ascii_of_string s) ->
  no_double_hyphen s -> no_leading_hyphen s -> no_trailing_hyphen s ->
  slugify s = s.
Proof.
  intros Hu Hd Hl Ht. unfold slugify, collapse_hyphens.
  rewrite (units_lower s Hu), (units_replace s Hu).
  rewrite (collapse_fixed s false Hd) by discriminate.
  now rewrite (drop_leading_fixed s Hl), (drop_trailing_fixed s Ht).
Qed.

End SlugifyFacts.

Lemma slugify_units (str : string) :
  Forall (fun c => AuthorPage.is_lower_alnum c = true \/ c = "-"%char)
    (list_ascii_of_string (AuthorPage.slugify str)).
Proof. apply (slugify_shape str). Qed.

(** [slugify] yields a slug in canonical form: only the units [a-z],
    [0-9] and the hyphen, no two hyphens in a row, no hyphen at the start
    and none at the end. *)
Theorem slugify_is_canonical (str : string) :
  Forall (fun c => AuthorPage.is_lower_alnum c = true \/ c = "-"%char)
    (list_ascii_of_string (AuthorPage.slugify str))
  /\ includes (AuthorPage.slugify str) "--" = false
  /\ prefix "-" (AuthorPage.slugify str) = false
  /\ endsWith (AuthorPage.slugify str) "-" = false.
Proof.
  destruct (slugify_shape str) as [Hu [Hd [Hl Ht]]].
  split; [exact Hu|]. split; [|split]; apply not_true_is_false; intros H.
  - apply includes_iff in H. destruct H as [pre [post E]]. now apply (Hd pre post).
  - apply prefix_iff in H. destruct H as [post E]. now apply (Hl post).
  - apply endsWith_iff in H. destruct H as [pre E]. now apply (Ht pre).
Qed.

(** [slugify] is idempotent: a slug is its own slug. *)
Theorem slugify_idempotent (str : string) :
  AuthorPage.slugify (AuthorPage.slugify str) = AuthorPage.slugify str.
Proof.
  destruct (slugify_shape str) as [Hu [Hd [Hl Ht]]].
  now apply slugify_fixed.
Qed.

(* ================================================================= *)
(** ** The author page: routes *)

Lemma Set_add_In (x y : string) (s : list string) :
  In y (Set_add x s) <-> y = x \/ In y s.
Proof.
  unfold Set_add. destruct (existsb (String.eqb x) s) eqn:E.
  - split; [auto|]. intros [-> | H]; [|exact H].
    apply existsb_exists in E. destruct E as [z [Hz Ez]].
    apply String.eqb_eq in Ez. now subst z.
  - rewrite in_app_iff. simpl. intuition auto.
Qed.

Lemma Set_new_In (x : string) (l : list string) :
  In x (Set_new l) <-> In x l.
Proof.
  unfold Set_new.
  assert (H : forall s, In x (fold_left (fun s y => Set_add y s) l s)
                        <-> In x s \/ In x l).
  { induction l as [|y l IH]; intros s; simpl; [intuition auto|].
    rewrite IH, Set_add_In. intuition auto. }
  rewrite H. simpl. intuition auto.
Qed.

Lemma is_space_lower (c : ascii) : is_space (lower_unit c) = is_space c.
Proof. destruct c as [[] [] [] [] [] [] [] []]; reflexivity. Qed.

Lemma toLowerCase_replace_spaces (b : bool) (s : string) :
  toLowerCase (replace_spaces_from b s) = replace_spaces_from b (toLowerCase s).
Proof.
  revert b; induction s as [|c s IH]; intros b; simpl; [reflexivity|].
  rewrite is_space_lower. destruct (is_space c).
  - destruct b; simpl; now rewrite IH.
  - simpl. now rewrite IH.
Qed.

(** An author slug of the static routes is already in lower case. *)
Lemma author_slug_lower (name : string) :
  toLowerCase (replace_spaces (toLowerCase name))
  = replace_spaces (toLowerCase name).
Proof.
  unfold replace_spaces.
  now rewrite toLowerCase_replace_spaces, toLowerCase_idempotent.
Qed.

(** A statically generated author route whose name holds a unit other
    than [a-z], [0-9] and the hyphen (a dot, say) is the not-found page:
    the route name keeps the unit, while the page compares it with
    [slugify] of the authors, which never does. *)
Theorem static_author_route_with_punctuation_is_not_found
  (matter : string -> Result (FrontMatter * string)) (fs : FileSystem)
  (names : list string) (p : string) (c : ascii) :
  AuthorPage.generateStaticParams matter fs = Ok names ->
  In p names ->
  In c (list_ascii_of_string p) ->
  AuthorPage.is_lower_alnum c = false ->
  c <> "-"%char ->
  AuthorPage.AuthorPage matter fs p = Ok AuthorPage.NotFound.
Proof.
  unfold AuthorPage.generateStaticParams, AuthorPage.AuthorPage.
  intros H Hp Hc Hna Hnh. apply bind_Ok in H. destruct H as [listing [Hl H]].
  inversion H; subst names. rewrite Hl. simpl.
  apply Set_new_In, in_map_iff in Hp. destruct Hp as [a [Ea _]].
  assert (Elow : toLowerCase p = p) by (rewrite <- Ea; apply author_slug_lower).
  rewrite Elow.
  assert (Enone : forall l : list ArticleSummary, filter
            (fun article => (AuthorPage.slugify (author article) =? p)%string)
            l = []).
  { intros l. induction l as [|b l IH]; [reflexivity|]. simpl.
    destruct (String.eqb_spec (AuthorPage.slugify (author b)) p) as [E|_];
      [|exact IH].
    exfalso. pose proof (slugify_units (author b)) as Hu.
    rewrite E in Hu. rewrite Forall_forall in Hu.
    destruct (Hu c Hc) as [Hal | Hh]; congruence. }
  now rewrite Enone.
Qed.

Lemma static_author_route_with_punctuation_is_not_found_witness :
  AuthorPage.generateStaticParams SampleAuthors.matter SampleAuthors.one_file
    = Ok ["dr.-ada-lovelace"]
  /\ AuthorPage.slugify "Dr. Ada Lovelace" = "dr-ada-lovelace"
  /\ AuthorPage.AuthorPage SampleAuthors.matter SampleAuthors.one_file
       "dr.-ada-lovelace" = Ok AuthorPage.NotFound.
Proof.
  split; [reflexivity|]. split; [reflexivity|].
  apply (static_author_route_with_punctuation_is_not_found
           SampleAuthors.matter SampleAuthors.one_file ["dr.-ada-lovelace"]
           "dr.-ada-lovelace" "."%char eq_refl (or_introl eq_refl)).
  - simpl. auto.
  - reflexivity.
  - discriminate.
Defined.

(** When [slugify] and the route naming agree on an author's name, the
    author's static route exists and its page lists the article. *)
Theorem static_author_route_shows_article
  (matter : string -> Result (FrontMatter * string)) (fs : FileSystem)
  (listing : list ArticleSummary) (a : ArticleSummary) :
  Markdown.getAllArticles matter fs = Ok listing ->
  In a listing ->
  AuthorPage.slugify (author a) = replace_spaces (toLowerCase (author a)) ->
  exists names shown,
    AuthorPage.generateStaticParams matter fs = Ok names
    /\ In (replace_spaces (toLowerCase (author a))) names
    /\ AuthorPage.AuthorPage matter fs (replace_spaces (toLowerCase (author a)))
       = Ok (AuthorPage.Rendered shown)
    /\ In a shown.
Proof.
  intros Hl Ha E.
  unfold AuthorPage.generateStaticParams, AuthorPage.AuthorPage.
  rewrite Hl. simpl. rewrite author_slug_lower.
  set (p := replace_spaces (toLowerCase (author a))) in *.
  set (shown := filter
         (fun article => (AuthorPage.slugify (author article) =? p)%string)
         listing).
  assert (Hin : In a shown).
  { apply filter_In. split; [exact Ha|]. now apply String.eqb_eq. }
  exists (Set_new (map (fun article => replace_spaces (toLowerCase (author article)))
                     listing)), shown.
  split; [reflexivity|]. split; [|split; [|exact Hin]].
  - apply Set_new_In, in_map_iff. now exists a.
  - destruct shown as [|x shown']; [contradiction | reflexivity].
Qed.

Lemma static_author_route_shows_article_witness :
  exists shown,
    AuthorPage.AuthorPage Sample.matter Sample.three_files
      "blessed-tosin-oyinbo" = Ok (AuthorPage.Rendered shown)
    /\ In Sample.january_summary shown.
Proof.
  destruct (static_author_route_shows_article Sample.matter Sample.three_files
              [Sample.june_summary; Sample.rails; Sample.january_summary]
              Sample.january_summary eq_refl
              (or_intror (or_intror (or_introl eq_refl))) eq_refl)
    as [names [shown [_ [_ [Hpage Hin]]]]].
  now exists shown.
Defined.

(* ================================================================= *)
(** ** Slugs, file names and order *)

Lemma replace_spaces_from_no_space (b : bool) (s : string) :
  Forall (fun c => is_space c = false)
    (list_ascii_of_string (replace_spaces_from b s)).
Proof.
  revert b; induction s as [|c s IH]; intros b; simpl; [constructor|].
  destruct (is_space c) eqn:E.
  - destruct b; [apply IH | constructor; [reflexivity | apply IH]].
  - constructor; [exact E | apply IH].
Qed.

(** The author part of a sitemap URL and of an author route holds no
    white space, whatever the author's name. *)
Theorem author_slug_has_no_space (name : string) :
  Forall (fun c => is_space c = false)
    (list_ascii_of_string (Sitemap.author_slug name)).
Proof. apply replace_spaces_from_no_space. Qed.

(** Slug and file name determine each other: the loader's slug of
    [s.md] is [s], and for a name ending in [.md] the path the renderer
    reads for the loader's slug is that name. *)
Theorem slug_and_file_name_round_trip (s name : string) :
  replace_md_suffix (s ++ ".md") = s
  /\ (endsWith name ".md" = true ->
      (replace_md_suffix name ++ ".md")%string = name)
  /\ (endsWith name ".md" = false -> replace_md_suffix name = name).
Proof.
  split; [apply replace_md_suffix_append|]. split.
  - intros H. symmetry. now apply endsWith_md_split.
  - induction name as [|c name IH]; intros H; [reflexivity|].
    cbn [endsWith] in H. apply orb_false_iff in H. destruct H as [H1 H2].
    cbn [replace_md_suffix]. rewrite H1. f_equal. now apply IH.
Qed.

Lemma slug_and_file_name_round_trip_witness :
  (replace_md_suffix "zendfi-00.md" ++ ".md")%string = "zendfi-00.md"
  /\ replace_md_suffix "notes.txt" = "notes.txt".
Proof.
  split.
  - apply (proj1 (proj2 (slug_and_file_name_round_trip "" "zendfi-00.md"))).
    reflexivity.
  - apply (proj2 (proj2 (slug_and_file_name_round_trip "" "notes.txt"))).
    reflexivity.
Defined.

Lemma StronglySorted_nth {A : Type} (R : A -> A -> Prop) (l : list A)
  (i j : nat) (x y : A) :
  StronglySorted R l -> (i < j)%nat ->
  nth_error l i = Some x -> nth_error l j = Some y -> R x y.
Proof.
  intros HS. revert i j. induction HS as [|a l HS IH HF]; intros i j Hij Hx Hy.
  - destruct i; discriminate.
  - destruct j as [|j]; [lia|]. simpl in Hy. destruct i as [|i]; simpl in Hx.
    + inversion Hx; subst. rewrite Forall_forall in HF.
      apply HF. now apply nth_error_In with j.
    + apply (IH i j); [lia | exact Hx | exact Hy].
Qed.

(** In a listing every article is dated no earlier than any article
    further down, adjacent or not; so the first one is the newest. *)
Theorem getAllArticles_sorted_any_pair
  (matter : string -> Result (FrontMatter * string)) (fs : FileSystem)
  (out : list ArticleSummary) (i j : nat) (a b : ArticleSummary) :
  Markdown.getAllArticles matter fs = Ok out ->
  (i < j)%nat ->
  nth_error out i = Some a ->
  nth_error out j = Some b ->
  (date a <? date b)%string = false.
Proof.
  intros H Hij Ha Hb.
  apply (StronglySorted_nth Spec.date_ge out i j a b
           (getAllArticles_StronglySorted matter fs out H) Hij Ha Hb).
Qed.

Lemma getAllArticles_sorted_any_pair_witness :
  ("2025-06-01" <? "2025-01-01")%string = false.
Proof.
  apply (getAllArticles_sorted_any_pair Sample.matter Sample.three_files
           [Sample.june_summary; Sample.rails; Sample.january_summary] 0 2
           Sample.june_summary Sample.january_summary eq_refl);
    [repeat constructor | reflexivity | reflexivity].
Defined.

(** The words "All Tags" and "All Categories", which the later
    [SearchModalProvider] passes on as they are, select everything in the
    second version of [ArticleList]; [ArticleList.tsx] takes them for a
    tag and a category, and returns nothing unless an article carries
    them. *)
Theorem all_words_are_selectors_for_the_copy_only
  (l : list ArticleSummary) :
  ArticleListCopy.filtered
    (mkProps l (Some "") (Some "All Tags") (Some "All Categories")) = l
  /\ ((forall a, In a l -> ~ Spec.has_tag a "All Tags") ->
      ArticleList.filtered
        (mkProps l (Some "") (Some "All Tags") (Some "All Categories")) = []).
Proof.
  split.
  - unfold ArticleListCopy.filtered.
    cbn [with_default search selectedTag selectedCategory articles].
    apply filter_all. intros a. reflexivity.
  - intros Habs. unfold ArticleList.filtered.
    cbn [with_default search selectedTag selectedCategory articles].
    induction l as [|x l IH]; [reflexivity|]. simpl.
    destruct (ArticleList.keep "" "All Tags" "All Categories" x) eqn:E.
    + apply ArticleList_keep_iff in E. destruct E as [_ [Ht _]].
      exfalso. apply (Habs x (or_introl eq_refl)), Ht. discriminate.
    + apply IH. intros a Ha. apply Habs. now right.
Qed.

Lemma all_words_are_selectors_for_the_copy_only_witness :
  ArticleList.filtered
    (mkProps [Sample.june_summary] (Some "") (Some "All Tags")
       (Some "All Categories")) = [].
Proof.
  apply (proj2 (all_words_are_selectors_for_the_copy_only [Sample.june_summary])).
  intros a [<- | []] [ts [E _]]. discriminate.
Defined.
